(** * CRAFT forecasting demo: an embedding of [craft_demo.ipynb]

    The notebook [convokit/forecaster/CRAFT/demos/craft_demo.ipynb] is a
    sequential script over ConvoKit's corpus objects.  This file embeds
    its code cells as Rocq functions:

    - Python values held in metadata dictionaries are the inductive
      [pyval]; a metadata dictionary is a [gmap string pyval];
    - Python exceptions are the type [exn]; code that may raise returns
      a [result];
    - calls that leave the notebook (dataset download, model loading,
      tokenizer, forecaster, metric and plotting libraries) are answered
      by a [World] and recorded in a trace, so the order of the cells,
      the calls made and the propagation of failures can be stated.

    Floating-point numbers are represented by the rational they denote
    (plus NaN); rounding and the infinities are not represented. *)

From Stdlib Require Import QArith Qround Ascii.
From stdpp Require Import base option list strings gmap.

Local Open Scope Z_scope.

(** ** Exceptions and results *)

Inductive exn : Type :=
| KeyError (key : string)
| TypeError
| ValueError
| IndexError
| ImportError (name : string)
| LibraryError (msg : string).

Inductive result (A : Type) : Type :=
| Ok (a : A)
| Raise (e : exn).

Arguments Ok {A} a.
Arguments Raise {A} e.

Definition bind {A B} (r : result A) (f : A -> result B) : result B :=
  match r with
  | Ok a => f a
  | Raise e => Raise e
  end.

Declare Scope result_scope.
Delimit Scope result_scope with result.
Notation "x <- r ;; k" := (bind r (fun x => k))
  (at level 100, r at next level, right associativity) : result_scope.
Local Open Scope result_scope.

Definition is_ok {A} (r : result A) : bool :=
  match r with Ok _ => true | Raise _ => false end.

(** ** Python values *)

Inductive pyfloat : Type :=
| FNaN
| FFin (q : Q).

(** The values the metadata fields used by the notebook can hold. *)
Inductive pyval : Type :=
| VNone
| VBool (b : bool)
| VInt (z : Z)
| VFloat (f : pyfloat)
| VStr (s : string)
| VToks (toks : list string).

(** Equality of floats as numbers ([NaN] is kept apart). *)
Definition feq (x y : pyfloat) : Prop :=
  match x, y with
  | FFin p, FFin q => (p == q)%Q
  | FNaN, FNaN => True
  | _, _ => False
  end.

Definition Qltb (x y : Q) : bool := negb (Qle_bool y x).

(** [bool(v)] *)
Definition py_truthy (v : pyval) : bool :=
  match v with
  | VNone => false
  | VBool b => b
  | VInt z => negb (z =? 0)
  | VFloat FNaN => true
  | VFloat (FFin q) => negb (Qeq_bool q 0)
  | VStr s => negb (String.eqb s EmptyString)
  | VToks l => match l with [] => false | _ => true end
  end.

(** [v == s] for a string literal [s]: values of other types are unequal. *)
Definition py_eq_str (v : pyval) (s : string) : bool :=
  match v with
  | VStr t => String.eqb t s
  | _ => false
  end.

(** [v is not None] *)
Definition py_is_not_None (v : pyval) : bool :=
  match v with VNone => false | _ => true end.

(** [v > t] for a float [t]: numbers compare by value, anything else
    raises [TypeError]. *)
Definition py_gt (v : pyval) (t : Q) : result bool :=
  match v with
  | VBool b => Ok (Qltb t (if b then 1 else 0)%Q)
  | VInt z => Ok (Qltb t (inject_Z z))
  | VFloat FNaN => Ok false
  | VFloat (FFin q) => Ok (Qltb t q)
  | VNone | VStr _ | VToks _ => Raise TypeError
  end.

(** [v[:n]] *)
Definition py_slice_to (v : pyval) (n : nat) : result pyval :=
  match v with
  | VToks l => Ok (VToks (take n l))
  | VStr s => Ok (VStr (String.substring 0 n s))
  | VNone | VBool _ | VInt _ | VFloat _ => Raise TypeError
  end.

(** *** [int(v)]

    On a string, for ASCII text: blanks around, a sign, and decimal
    digits with single underscores between them.  The blanks and digits
    of Unicode beyond ASCII are not represented. *)

Definition is_space (a : Ascii.ascii) : bool :=
  let n := Ascii.nat_of_ascii a in
  (Nat.eqb n 32 || (Nat.leb 9 n && Nat.leb n 13))%bool.

Fixpoint lstrip (l : list Ascii.ascii) : list Ascii.ascii :=
  match l with
  | a :: l' => if is_space a then lstrip l' else l
  | [] => []
  end.

Definition strip (l : list Ascii.ascii) : list Ascii.ascii :=
  rev (lstrip (rev (lstrip l))).

Definition digit_of (a : Ascii.ascii) : option Z :=
  let n := Ascii.nat_of_ascii a in
  if (Nat.leb 48 n && Nat.leb n 57)%bool then Some (Z.of_nat (n - 48)) else None.

(** Digits with single underscores between them; [prev] tells whether
    the previous character was a digit. *)
Fixpoint parse_digits (acc : Z) (prev : bool) (l : list Ascii.ascii) : option Z :=
  match l with
  | [] => if prev then Some acc else None
  | a :: l' =>
      match digit_of a with
      | Some d => parse_digits (10 * acc + d) true l'
      | None =>
          if (Ascii.eqb a "_"%char && prev)%bool
          then match l' with
               | [] => None
               | _ => parse_digits acc false l'
               end
          else None
      end
  end.

Definition int_of_str (s : string) : result Z :=
  let body := strip (String.list_ascii_of_string s) in
  let '(sign, ds) :=
    match body with
    | a :: l' =>
        if Ascii.eqb a "-"%char then (-1, l')
        else if Ascii.eqb a "+"%char then (1, l')
        else (1, body)
    | [] => (1, [])
    end in
  match parse_digits 0 false ds with
  | Some z => Ok (sign * z)
  | None => Raise ValueError
  end.

(** Truncation towards zero. *)
Definition Qtrunc (q : Q) : Z :=
  if Qle_bool 0 q then Qfloor q else Qceiling q.

Definition py_int (v : pyval) : result Z :=
  match v with
  | VBool b => Ok (if b then 1 else 0)
  | VInt z => Ok z
  | VFloat FNaN => Raise ValueError
  | VFloat (FFin q) => Ok (Qtrunc q)
  | VStr s => int_of_str s
  | VNone | VToks _ => Raise TypeError
  end.

(** ** The corpus *)

Record Utterance : Type := {
  utt_id : string;
  utt_text : string;
  utt_meta : gmap string pyval
}.

Record Conversation : Type := {
  convo_id : string;
  convo_meta : gmap string pyval;
  convo_utterances : list Utterance
}.

(** A corpus is the list of its conversations; every utterance lives in
    the conversation it belongs to, so that an utterance reached through
    the corpus and through its conversation is the same object. *)
Abbreviation Corpus := (list Conversation).

(** [meta[key]] *)
Definition getitem (meta : gmap string pyval) (key : string) : result pyval :=
  match meta !! key with
  | Some v => Ok v
  | None => Raise (KeyError key)
  end.

(** [utt.add_meta(key, value)] *)
Definition add_meta (utt : Utterance) (key : string) (value : pyval) : Utterance :=
  {| utt_id := utt_id utt;
     utt_text := utt_text utt;
     utt_meta := <[key := value]> (utt_meta utt) |}.

(** [corpus.iter_utterances()].  The toolkit walks the utterance table
    of the corpus, whose order this type of corpus does not record; here
    the utterances come conversation by conversation.  The statements
    below speak of the utterances visited up to their order. *)
Definition iter_utterances (corpus : Corpus) : list Utterance :=
  concat (map convo_utterances corpus).

(** [corpus.iter_conversations(selector=...)] is a generator: the
    selector runs on a conversation only when the loop reaches it.  The
    loop [for convo in corpus.iter_conversations(selector): acc = body]
    is therefore a fold that tests and then runs the body. *)
Fixpoint for_conversations {S} (selector : Conversation -> result bool)
    (body : Conversation -> S -> result S) (convos : list Conversation) (s : S)
    : result S :=
  match convos with
  | [] => Ok s
  | c :: rest =>
      sel <- selector c ;;
      s' <- (if sel then body c s else Ok s) ;;
      for_conversations selector body rest s'
  end.

(** ** Cell 6: the forecaster's accessors *)

Definition MAX_LENGTH : nat := 80.

(** [lambda utt: utt.meta["tokens"][:(MAX_LENGTH-1)]] *)
Definition text_func (utt : Utterance) : result pyval :=
  toks <- getitem (utt_meta utt) "tokens" ;;
  py_slice_to toks (MAX_LENGTH - 1).

(** [lambda utt: int(utt.meta['comment_has_personal_attack'])] *)
Definition label_func (utt : Utterance) : result Z :=
  v <- getitem (utt_meta utt) "comment_has_personal_attack" ;;
  py_int v.

(** ** Cell 9: consolidating predictions per conversation *)

(** [FORECAST_THRESH = 0.570617]: the value of the literal, the double
    nearest to the decimal, which is 5139661017142541 / 2^53 (a little
    above 570617 / 10^6). *)
Definition FORECAST_THRESH : Q := 5139661017142541 # 9007199254740992.

(** [lambda c: c.meta['split'] == 'test'] *)
Definition is_test (c : Conversation) : result bool :=
  v <- getitem (convo_meta c) "split" ;;
  Ok (py_eq_str v "test").

(** The inner loop: [prediction] is set to 1 by every utterance whose
    score passes the guarded test. *)
Fixpoint consolidate_utts (utts : list Utterance) (prediction : Z) : result Z :=
  match utts with
  | [] => Ok prediction
  | utt :: rest =>
      v <- getitem (utt_meta utt) "pred_score" ;;
      hit <- (if py_is_not_None v
             then (v' <- getitem (utt_meta utt) "pred_score" ;; py_gt v' FORECAST_THRESH)
             else Ok false) ;;
      consolidate_utts rest (if hit then 1 else prediction)
  end.

(** The body of the outer loop, on the pair [(preds, labels)]. *)
Definition consolidate_body (convo : Conversation) (acc : list Z * list Z)
    : result (list Z * list Z) :=
  let '(preds, labels) := acc in
  v <- getitem (convo_meta convo) "conversation_has_personal_attack" ;;
  label <- py_int v ;;
  let labels := labels ++ [label] in
  prediction <- consolidate_utts (convo_utterances convo) 0 ;;
  Ok (preds ++ [prediction], labels).

Definition consolidate (corpus : Corpus) : result (list Z * list Z) :=
  for_conversations is_test consolidate_body corpus ([], []).

(** ** Cell 10: accuracy, precision, recall, F1 and false positive rate *)

(** [np.mean] of an array of numbers; the mean of an empty array is NaN. *)
Definition np_mean (a : list Q) : pyfloat :=
  match a with
  | [] => FNaN
  | _ => FFin (fold_right Qplus 0%Q a / inject_Z (Z.of_nat (length a)))%Q
  end.

Definition Q_of_bool (b : bool) : Q := if b then 1%Q else 0%Q.

(** [a == b] on arrays: elementwise on equal shapes, the scalar [False]
    otherwise. *)
Definition array_eq (a b : list Z) : list bool :=
  if Nat.eqb (length a) (length b)
  then zip_with Z.eqb a b
  else [false].

(** [a[mask]], for a boolean mask as long as the array. *)
Definition array_mask (a : list Z) (mask : list bool) : list Z :=
  map fst (filter (fun p => Is_true (snd p)) (zip a mask)).

(** Number of positions where [y_true] is [t] and [y_pred] is [p];
    [t] and [p] tell whether the entry is the positive label 1. *)
Definition count_cells (t p : bool) (y_true y_pred : list Z) : nat :=
  length (filter (fun c => Is_true (Bool.eqb (fst c =? 1) t && Bool.eqb (snd c =? 1) p))
                 (zip y_true y_pred)).

(** [n / d], and 0 where the denominator is 0 (the library's
    [zero_division] default). *)
Definition ratio (n d : nat) : pyfloat :=
  match d with
  | O => FFin 0
  | _ => FFin (inject_Z (Z.of_nat n) / inject_Z (Z.of_nat d))%Q
  end.

Definition distinct_values (l : list Z) : list Z := remove_dups l.

(** Modelled from the spec: [precision_recall_fscore_support] belongs to
    the external statistics library, which the spec calls "standard
    metric functions"; it is not part of the source.  The model is the
    library's documented contract for [average='binary'] with the
    positive label 1: the first argument is [y_true] (the ground truth),
    the second is [y_pred] (the estimates); precision is
    tp / (tp + fp), recall is tp / (tp + fn), F1 is their harmonic mean,
    where tp, fp and fn count the positions with
    (y_true, y_pred) = (1, 1), (not 1, 1) and (1, not 1); a ratio with
    denominator 0 is 0.  Arrays of different lengths, more than two
    distinct labels, or two labels without the positive one are
    rejected with [ValueError]. *)
Definition precision_recall_fscore_support (y_true y_pred : list Z)
    : result (pyfloat * pyfloat * pyfloat) :=
  let present := distinct_values (y_true ++ y_pred) in
  if negb (Nat.eqb (length y_true) (length y_pred)) then Raise ValueError
  else if Nat.ltb 2 (length present) then Raise ValueError
  else if (negb (bool_decide (1 ∈ present)) && Nat.leb 2 (length present))%bool
  then Raise ValueError
  else
    let tp := count_cells true true y_true y_pred in
    let fp := count_cells false true y_true y_pred in
    let fn := count_cells true false y_true y_pred in
    Ok (ratio tp (tp + fp), ratio tp (tp + fn), ratio (2 * tp) (2 * tp + fp + fn)).

(** What the cell prints. *)
Record Metrics : Type := {
  acc : pyfloat;
  precision : pyfloat;
  recall : pyfloat;
  fpr : pyfloat;
  f1 : pyfloat
}.

(** [acc = np.mean(preds == labels)]
    [precision, recall, f1, _ = precision_recall_fscore_support(preds, labels, average='binary')]
    [fpr = np.mean(preds[labels==0])] *)
Definition metrics_cell (preds labels : list Z) : result Metrics :=
  let acc := np_mean (map Q_of_bool (array_eq preds labels)) in
  prf <- precision_recall_fscore_support preds labels ;;
  let '(precision, recall, f1) := prf in
  let fpr := np_mean (map inject_Z (array_mask preds (map (Z.eqb 0) labels))) in
  Ok {| acc := acc; precision := precision; recall := recall; fpr := fpr; f1 := f1 |}.

(** ** Cell 11: number of comments until derailment *)

(** [lambda c: c.meta['split'] == 'test' and c.meta['conversation_has_personal_attack']],
    as the truth value the iterator takes of it. *)
Definition is_derailing_test (c : Conversation) : result bool :=
  v <- getitem (convo_meta c) "split" ;;
  if py_eq_str v "test"
  then (w <- getitem (convo_meta c) "conversation_has_personal_attack" ;;
        Ok (py_truthy w))
  else Ok false.

(** [[utt for utt in convo.iter_utterances() if not utt.meta['is_section_header']]] *)
Fixpoint non_header_utts (l : list Utterance) : result (list Utterance) :=
  match l with
  | [] => Ok []
  | utt :: rest =>
      v <- getitem (utt_meta utt) "is_section_header" ;;
      tl <- non_header_utts rest ;;
      Ok (if negb (py_truthy v) then utt :: tl else tl)
  end.

(** [range(a, b)] *)
Definition range (a b : nat) : list nat := seq a (b - a).

(** The scan [for idx in range(1, len(utts))]: the result is the value
    stored for the conversation, if the loop reached its [break]. *)
Fixpoint derail_scan (utts : list Utterance) (derail_idx : Z) (idxs : list nat)
    : result (option Z) :=
  match idxs with
  | [] => Ok None
  | idx :: more =>
      match utts !! idx with
      | None => Raise IndexError
      | Some utt =>
          v <- getitem (utt_meta utt) "pred_score" ;;
          hit <- py_gt v FORECAST_THRESH ;;
          if hit
          then Ok (Some (derail_idx - (Z.of_nat idx - 1)))
          else derail_scan utts derail_idx more
      end
  end.

Definition derail_body (convo : Conversation) (comments_until_derail : gmap string Z)
    : result (gmap string Z) :=
  utts <- non_header_utts (convo_utterances convo) ;;
  let derail_idx := Z.of_nat (length utts) - 1 in
  found <- derail_scan utts derail_idx (range 1 (length utts)) ;;
  Ok match found with
     | Some n => <[convo_id convo := n]> comments_until_derail
     | None => comments_until_derail
     end.

Definition comments_until_derail (corpus : Corpus) : result (gmap string Z) :=
  for_conversations is_derailing_test derail_body corpus ∅.

(** ** The boundary of the notebook *)

(** The vocabulary held by the loaded model. *)
Definition Voc : Type := list string.

Record CRAFTModel : Type := {
  device_type : string;
  voc : Voc
}.

(** The arguments of [Forecaster(...)] in cell 6. *)
Record Forecaster : Type := {
  forecaster_model : CRAFTModel;
  forecast_mode : string;
  convo_structure : string;
  fc_text_func : Utterance -> result pyval;
  fc_label_func : Utterance -> result Z;
  forecast_attribute_name : string;
  forecast_prob_attribute_name : string;
  use_last_only : bool;
  skip_broken_convos : bool
}.

(** The table returned by [forecaster.summarize]; the notebook binds it
    to [df] and does not use it. *)
Definition DataFrame : Type := list (string * pyval * pyval).

(** The code cells, in the order of the file. *)
Inductive step : Type :=
| Imports
| LoadCorpus
| SetDevice
| LoadModel
| Tokenize
| BuildForecaster
| RunTransform
| Summarize
| Aggregate
| ComputeMetrics
| CommentsUntilDerail
| PlotHistogram.

#[global] Instance step_eq_dec : EqDecision step.
Proof. solve_decision. Defined.

(** The calls that leave the notebook for library code with effects of
    its own; the statements of cell 1, which load and run library
    modules, are recorded with them.  Accessors of objects in memory
    ([iter_utterances], [add_meta], [meta[...]], array helpers of numpy)
    and [print] are embedded as the functions above and are not
    recorded. *)
Inductive ext_call : Type :=
| call_import (statement : string)
| call_download (name : string)
| call_Corpus (filename : string)
| call_CRAFTModel (device : string)
| call_craft_tokenize (v : Voc) (text : string)
| call_Forecaster (attribute_name prob_attribute_name : string)
| call_transform
| call_summarize
| call_precision_recall_fscore_support (y_true y_pred : list Z)
| call_plt (function : string).

Inductive outcome : Type :=
| Returned
| Raised (e : exn).

Inductive event : Type :=
| CellStart (s : step)
| Call (c : ext_call) (o : outcome).

(** The answers of the libraries.  Every call can fail. *)
Record World : Type := {
  import_ : string -> result unit;
  download : string -> result string;
  Corpus_init : string -> result Corpus;
  CRAFTModel_init : string -> result CRAFTModel;
  craft_tokenize : Voc -> string -> result (list string);
  Forecaster_init : Forecaster -> result unit;
  Forecaster_transform :
    Forecaster -> Corpus -> (Conversation -> result bool) ->
    (Utterance -> result pyval) -> result Corpus;
  Forecaster_summarize : Forecaster -> Corpus -> result DataFrame;
  plt : string -> result unit
}.

(** ** Cells as computations with a trace *)

Definition M (A : Type) : Type := list event -> list event * result A.

Definition ret {A} (a : A) : M A := fun tr => (tr, Ok a).

Definition mbind {A B} (m : M A) (f : A -> M B) : M B :=
  fun tr =>
    match m tr with
    | (tr', Ok a) => f a tr'
    | (tr', Raise e) => (tr', Raise e)
    end.

Declare Scope nb_scope.
Delimit Scope nb_scope with nb.
Notation "x <- m ;; k" := (mbind m (fun x => k))
  (at level 100, m at next level, right associativity) : nb_scope.
Notation "m ;;; k" := (mbind m (fun _ => k))
  (at level 100, right associativity) : nb_scope.

(** Code of the notebook itself: no event, the exception (if any)
    travels on. *)
Definition lift {A} (r : result A) : M A := fun tr => (tr, r).

Definition outcome_of {A} (r : result A) : outcome :=
  match r with Ok _ => Returned | Raise e => Raised e end.

(** A call across the boundary: the call and its outcome are recorded. *)
Definition ext {A} (c : ext_call) (r : result A) : M A :=
  fun tr => (tr ++ [Call c (outcome_of r)], r).

Definition cell {A} (s : step) (m : M A) : M A :=
  fun tr => m (tr ++ [CellStart s]).

(** A loop that rebuilds the list it walks, as the in-place updates of
    the objects do. *)
Fixpoint for_each {A} (f : A -> M A) (l : list A) : M (list A) :=
  match l with
  | [] => ret []
  | a :: rest =>
      (a' <- f a ;;
       rest' <- for_each f rest ;;
       ret (a' :: rest'))%nb
  end.

Section Notebook.

Variable w : World.

(** Cell 1: the magic [%matplotlib inline] and the six import
    statements, by the module each one loads. *)
Definition cell1_statements : list string :=
  ["%matplotlib inline"; "numpy"; "matplotlib"; "sklearn.metrics"; "convokit";
   "convokit.forecaster.CRAFTModel"; "convokit.forecaster.CRAFT"].

Fixpoint import_all (statements : list string) : M unit :=
  match statements with
  | [] => ret tt
  | st :: rest => (ext (call_import st) (import_ w st) ;;; import_all rest)%nb
  end.

(** Cell 2: [corpus = Corpus(filename=download('conversations-gone-awry-corpus'))] *)
Definition load_corpus : M Corpus :=
  (filename <- ext (call_download "conversations-gone-awry-corpus")
                   (download w "conversations-gone-awry-corpus") ;;
   ext (call_Corpus filename) (Corpus_init w filename))%nb.

(** Cell 3 *)
Definition DEVICE : string := "cpu".

(** Cell 4: [craft_model = CRAFTModel(device_type=DEVICE)] *)
Definition load_model : M CRAFTModel :=
  ext (call_CRAFTModel DEVICE) (CRAFTModel_init w DEVICE).

(** Cell 5: [utt.add_meta("tokens", craft_tokenize(craft_model.voc, utt.text))] *)
Definition tokenize_utt (craft_model : CRAFTModel) (utt : Utterance) : M Utterance :=
  (toks <- ext (call_craft_tokenize (voc craft_model) (utt_text utt))
               (craft_tokenize w (voc craft_model) (utt_text utt)) ;;
   ret (add_meta utt "tokens" (VToks toks)))%nb.

Definition tokenize_convo (craft_model : CRAFTModel) (c : Conversation) : M Conversation :=
  (utts <- for_each (tokenize_utt craft_model) (convo_utterances c) ;;
   ret {| convo_id := convo_id c; convo_meta := convo_meta c;
          convo_utterances := utts |})%nb.

Definition tokenize (craft_model : CRAFTModel) (corpus : Corpus) : M Corpus :=
  for_each (tokenize_convo craft_model) corpus.

(** Cell 6 *)
Definition forecaster_args (craft_model : CRAFTModel) : Forecaster :=
  {| forecaster_model := craft_model;
     forecast_mode := "past";
     convo_structure := "linear";
     fc_text_func := text_func;
     fc_label_func := label_func;
     forecast_attribute_name := "prediction";
     forecast_prob_attribute_name := "pred_score";
     use_last_only := false;
     skip_broken_convos := false |}.

Definition build_forecaster (craft_model : CRAFTModel) : M Forecaster :=
  let fc := forecaster_args craft_model in
  (ext (call_Forecaster (forecast_attribute_name fc) (forecast_prob_attribute_name fc))
       (Forecaster_init w fc) ;;;
   ret fc)%nb.

(** Cell 7: the selector [lambda convo: convo.meta["split"] in ['test']]
    and the filter [lambda utt: utt.meta['is_section_header']]. *)
Definition transform_selector (convo : Conversation) : result bool :=
  v <- getitem (convo_meta convo) "split" ;;
  Ok (existsb (py_eq_str v) ["test"]).

Definition ignore_utterances (utt : Utterance) : result pyval :=
  getitem (utt_meta utt) "is_section_header".

Definition run_transform (forecaster : Forecaster) (corpus : Corpus) : M Corpus :=
  ext call_transform
      (Forecaster_transform w forecaster corpus transform_selector ignore_utterances).

(** Cell 8: [df = forecaster.summarize(corpus)] *)
Definition summarize (forecaster : Forecaster) (corpus : Corpus) : M DataFrame :=
  ext call_summarize (Forecaster_summarize w forecaster corpus).

(** Cell 10, with the library call recorded. *)
Definition compute_metrics (preds labels : list Z) : M Metrics :=
  (ext (call_precision_recall_fscore_support preds labels)
       (precision_recall_fscore_support preds labels) ;;;
   lift (metrics_cell preds labels))%nb.

(** Cell 12.  [np.max] of an empty array raises [ValueError]. *)
Definition np_max (a : list Z) : result Z :=
  match a with
  | [] => Raise ValueError
  | x :: rest => Ok (fold_right Z.max x rest)
  end.

Definition plot_calls : list string :=
  ["hist"; "xlim"; "xticks"; "yticks"; "xlabel"; "ylabel"; "show"].

Fixpoint plt_all (fs : list string) : M unit :=
  match fs with
  | [] => ret tt
  | f :: rest => (ext (call_plt f) (plt w f) ;;; plt_all rest)%nb
  end.

Definition plot_histogram (cud : gmap string Z) : M unit :=
  let comments_until_derail_vals := (map_to_list cud).*2 in
  (lift (np_max comments_until_derail_vals) ;;;
   plt_all plot_calls)%nb.

(** What the kernel holds when the last cell has run. *)
Record Final : Type := {
  final_corpus : Corpus;
  final_preds : list Z;
  final_labels : list Z;
  final_metrics : Metrics;
  final_comments_until_derail : gmap string Z
}.

Definition notebook : M Final :=
  (cell Imports (import_all cell1_statements) ;;;
   corpus <- cell LoadCorpus load_corpus ;;
   cell SetDevice (ret tt) ;;;
   craft_model <- cell LoadModel load_model ;;
   corpus <- cell Tokenize (tokenize craft_model corpus) ;;
   forecaster <- cell BuildForecaster (build_forecaster craft_model) ;;
   corpus <- cell RunTransform (run_transform forecaster corpus) ;;
   cell Summarize (summarize forecaster corpus) ;;;
   pl <- cell Aggregate (lift (consolidate corpus)) ;;
   metrics <- cell ComputeMetrics (compute_metrics (fst pl) (snd pl)) ;;
   cud <- cell CommentsUntilDerail (lift (comments_until_derail corpus)) ;;
   cell PlotHistogram (plot_histogram cud) ;;;
   ret {| final_corpus := corpus;
          final_preds := fst pl;
          final_labels := snd pl;
          final_metrics := metrics;
          final_comments_until_derail := cud |})%nb.

Definition run : list event * result Final := notebook [].

End Notebook.


(** ** The conversation-level metrics in the words of the notebook

    "True positives are cases that actually derail, for which the model
    made at least one positive forecast"; false positives "don't derail
    but ... the model made at least one positive forecast"; false
    negatives "derail but ... the model made no positive forecasts". *)

Definition count_where (pred label : Z) (preds labels : list Z) : nat :=
  length (filter (fun c => fst c = pred /\ snd c = label) (zip preds labels)).

Definition TP (preds labels : list Z) : nat := count_where 1 1 preds labels.
Definition FP (preds labels : list Z) : nat := count_where 1 0 preds labels.
Definition FN (preds labels : list Z) : nat := count_where 0 1 preds labels.

Definition correct (preds labels : list Z) : nat :=
  length (filter (fun c => fst c = snd c) (zip preds labels)).

Definition standard_accuracy (preds labels : list Z) : pyfloat :=
  match preds with
  | [] => FNaN
  | _ => ratio (correct preds labels) (length preds)
  end.

Definition standard_precision (preds labels : list Z) : pyfloat :=
  ratio (TP preds labels) (TP preds labels + FP preds labels).

Definition standard_recall (preds labels : list Z) : pyfloat :=
  ratio (TP preds labels) (TP preds labels + FN preds labels).

Definition binary (l : list Z) : Prop := Forall (fun x => x = 0 \/ x = 1) l.

(** ** Metadata footprints *)

(** The fields named by the spec's data model. *)
Definition notebook_fields : list string :=
  ["tokens"; "comment_has_personal_attack"; "is_section_header"; "split";
   "conversation_has_personal_attack"; "pred_score"].

(** Two objects agree on the fields [keys]. *)
Definition utt_agree (keys : list string) (u1 u2 : Utterance) : Prop :=
  utt_id u1 = utt_id u2 /\ utt_text u1 = utt_text u2 /\
  forall k, k ∈ keys -> utt_meta u1 !! k = utt_meta u2 !! k.

Definition convo_agree (keys : list string) (c1 c2 : Conversation) : Prop :=
  convo_id c1 = convo_id c2 /\
  (forall k, k ∈ keys -> convo_meta c1 !! k = convo_meta c2 !! k) /\
  Forall2 (utt_agree keys) (convo_utterances c1) (convo_utterances c2).

Definition corpus_agree (keys : list string) (k1 k2 : Corpus) : Prop :=
  Forall2 (convo_agree keys) k1 k2.

(** The second object is the first one up to writes to the utterance
    fields [keys]. *)
Definition utt_written (keys : list string) (u u' : Utterance) : Prop :=
  utt_id u = utt_id u' /\ utt_text u = utt_text u' /\
  forall k, k ∉ keys -> utt_meta u !! k = utt_meta u' !! k.

Definition convo_written (keys : list string) (c c' : Conversation) : Prop :=
  convo_id c = convo_id c' /\ convo_meta c = convo_meta c' /\
  Forall2 (utt_written keys) (convo_utterances c) (convo_utterances c').

Definition corpus_written (keys : list string) (k k' : Corpus) : Prop :=
  Forall2 (convo_written keys) k k'.

(** Modelled from the spec: [Forecaster.transform] is code of the
    toolkit that is not part of the source.  The spec describes it as "a
    generic forecasting transform that iterates conversations and
    produces per-utterance scores", "invoked with a conversation
    selector and an utterance-filter predicate"; the notebook gives the
    forecaster the two attribute names under which the forecast and its
    score are kept, and guards its reads of the score against [None].
    The model: the transform leaves the corpus as it is up to writes to
    the utterance fields named by these two attributes. *)
Definition transform_annotates (w : World) : Prop :=
  forall fc corpus selector ignore corpus',
    Forecaster_transform w fc corpus selector ignore = Ok corpus' ->
    corpus_written [forecast_attribute_name fc; forecast_prob_attribute_name fc]
                   corpus corpus'.

(** An instance of it: every utterance receives both attributes, the
    forecast of [backend] in a selected conversation when the filter
    keeps the utterance, and [None] otherwise. *)
Definition annotate (fc : Forecaster) (forecast : option (Z * pyfloat))
    (utt : Utterance) : Utterance :=
  match forecast with
  | Some (p, s) =>
      add_meta (add_meta utt (forecast_attribute_name fc) (VInt p))
               (forecast_prob_attribute_name fc) (VFloat s)
  | None =>
      add_meta (add_meta utt (forecast_attribute_name fc) VNone)
               (forecast_prob_attribute_name fc) VNone
  end.

Fixpoint map_result {A B} (f : A -> result B) (l : list A) : result (list B) :=
  match l with
  | [] => Ok []
  | a :: rest =>
      b <- f a ;;
      rest' <- map_result f rest ;;
      Ok (b :: rest')
  end.

Definition annotate_convo (backend : Utterance -> option (Z * pyfloat))
    (fc : Forecaster) (ignore : Utterance -> result pyval) (sel : bool)
    (convo : Conversation) : result Conversation :=
  utts <- map_result
            (fun utt =>
               if sel
               then (ig <- ignore utt ;;
                     Ok (annotate fc (if py_truthy ig then None else backend utt) utt))
               else Ok (annotate fc None utt))
            (convo_utterances convo) ;;
  Ok {| convo_id := convo_id convo; convo_meta := convo_meta convo;
        convo_utterances := utts |}.

Definition transform_model (backend : Utterance -> option (Z * pyfloat))
    (fc : Forecaster) (corpus : Corpus) (selector : Conversation -> result bool)
    (ignore : Utterance -> result pyval) : result Corpus :=
  map_result
    (fun convo => sel <- selector convo ;; annotate_convo backend fc ignore sel convo)
    corpus.

(** ** A small corpus and a world around it *)

Definition mk_utt (id text : string) (header : bool) : Utterance :=
  {| utt_id := id; utt_text := text;
     utt_meta := <["is_section_header" := VBool header]>
                 (<["comment_has_personal_attack" := VBool false]> ∅) |}.

Definition mk_convo (id split : string) (attack : bool) (utts : list Utterance)
    : Conversation :=
  {| convo_id := id;
     convo_meta := <["split" := VStr split]>
                   (<["conversation_has_personal_attack" := VBool attack]> ∅);
     convo_utterances := utts |}.

Definition example_corpus : Corpus :=
  [ mk_convo "t1" "test" true
      [mk_utt "h1" "Sources" true; mk_utt "u1" "hello there" false;
       mk_utt "u2" "that is wrong" false; mk_utt "u3" "you fool" false];
    mk_convo "t2" "test" false
      [mk_utt "u4" "thanks" false; mk_utt "u5" "any time" false];
    mk_convo "r1" "train" false [mk_utt "u6" "fine" false] ].

Definition example_backend (utt : Utterance) : option (Z * pyfloat) :=
  if String.eqb (utt_id utt) "u2" then Some (0, FFin (1 # 4))
  else if String.eqb (utt_id utt) "u3" then Some (1, FFin (7 # 8))
  else if String.eqb (utt_id utt) "u5" then Some (1, FFin (3 # 4))
  else None.

Definition example_world : World :=
  {| import_ := fun _ => Ok tt;
     download := fun name => Ok ("downloads/" +:+ name);
     Corpus_init := fun _ => Ok example_corpus;
     CRAFTModel_init := fun d => Ok {| device_type := d; voc := ["hello"; "there"] |};
     craft_tokenize := fun _ text => Ok [text];
     Forecaster_init := fun _ => Ok tt;
     Forecaster_transform := transform_model example_backend;
     Forecaster_summarize := fun _ _ => Ok [];
     plt := fun _ => Ok tt |}.

(** A world whose model cannot be loaded. *)
Definition broken_world : World :=
  {| import_ := import_ example_world;
     download := download example_world;
     Corpus_init := Corpus_init example_world;
     CRAFTModel_init := fun _ => Raise (LibraryError "no saved parameters");
     craft_tokenize := craft_tokenize example_world;
     Forecaster_init := Forecaster_init example_world;
     Forecaster_transform := Forecaster_transform example_world;
     Forecaster_summarize := Forecaster_summarize example_world;
     plt := plt example_world |}.

Definition scored_utt (id : string) (header : bool) (score : pyval) : Utterance :=
  add_meta (mk_utt id id header) "pred_score" score.

(** A derailing test conversation whose second comment carries no
    score. *)
Definition unscored_convo : Conversation :=
  mk_convo "t3" "test" true
    [scored_utt "h" true VNone; scored_utt "a" false VNone;
     scored_utt "b" false VNone; scored_utt "c" false (VFloat (FFin (7 # 8)))].

(** The same conversation with a score on every comment after the
    first. *)
Definition fully_scored_convo : Conversation :=
  mk_convo "t4" "test" true
    [scored_utt "h" true VNone; scored_utt "a" false VNone;
     scored_utt "b" false (VFloat (FFin (1 # 8)));
     scored_utt "c" false (VFloat (FFin (7 # 8)))].

Definition long_utt : Utterance :=
  add_meta (mk_utt "long" "text" false) "tokens" (VToks (replicate 200 "tok")).

(** ** Views of a trace *)

Definition steps_of (tr : list event) : list step :=
  omap (fun ev => match ev with CellStart s => Some s | Call _ _ => None end) tr.

Definition calls_of (tr : list event) : list ext_call :=
  omap (fun ev => match ev with Call c _ => Some c | CellStart _ => None end) tr.

Definition all_steps : list step :=
  [Imports; LoadCorpus; SetDevice; LoadModel; Tokenize; BuildForecaster;
   RunTransform; Summarize; Aggregate; ComputeMetrics; CommentsUntilDerail;
   PlotHistogram].

(** The flow of the spec: load corpus, load pretrained model, tokenize
    utterances, run the forecasting transform, aggregate per-conversation
    predictions, compute metrics, plot a histogram. *)
Definition spec_flow : list step :=
  [LoadCorpus; LoadModel; Tokenize; RunTransform; Aggregate; ComputeMetrics;
   PlotHistogram].

(** The four shapes of call of the spec: download by name, model
    construction with a device type, tokenization of raw text with a
    vocabulary, the transform. *)
Definition spec_shape (c : ext_call) : bool :=
  match c with
  | call_download _ | call_CRAFTModel _ | call_craft_tokenize _ _ | call_transform => true
  | _ => false
  end.

(** No call in the trace has raised. *)
Definition clean (tr : list event) : Prop :=
  Forall (fun ev => match ev with Call _ (Raised _) => False | _ => True end) tr.

(** A run stops at the first call that raises, with that exception. *)
Definition fail_stop {A} (out : list event * result A) : Prop :=
  forall pre c e post,
    fst out = pre ++ Call c (Raised e) :: post ->
    post = [] /\ snd out = Raise e /\ clean pre.

(** A handler, as [try: m except: h] would be; the notebook has none. *)
Definition catch {A} (m : M A) (h : exn -> M A) : M A :=
  fun tr =>
    match m tr with
    | (tr', Ok a) => (tr', Ok a)
    | (tr', Raise e) => h e tr'
    end.

(** ** The documentation stub [politenessStrategies.rst] *)

Definition politenessStrategies_rst : list string :=
  ["politenessStrategies";
   "====================";
   EmptyString;
   "Computes Politeness Strategies features. See Section 4 of this `paper <http://www.cs.cornell.edu/~cristian/Conversations_gone_awry.html>`_.";
   EmptyString;
   "Example usage: `understanding the (mis)use of politeness strategies in conversations gone awry on Wikipedia <https://github.com/CornellNLP/Cornell-Conversational-Analysis-Toolkit/blob/master/examples/conversations-gone-awry/Conversations_Gone_Awry_Prediction.ipynb>`_";
   EmptyString;
   ".. automodule:: convokit.politenessStrategies.politenessStrategies";
   "    :members:"].

Definition contains (sub line : string) : bool :=
  match String.index 0 sub line with Some _ => true | None => false end.

Definition is_blank (line : string) : bool := String.eqb line EmptyString.

(** An explicit markup line that is a directive. *)
Definition is_directive (line : string) : bool :=
  (String.prefix ".. " line && contains "::" line)%bool.

Definition ends_with (suffix line : string) : bool :=
  let n := String.length line in
  let k := String.length suffix in
  (Nat.leb k n && String.eqb (String.substring (n - k) k line) suffix)%bool.

(** Lines that carry code: an interpreter prompt, a code directive, or
    the opening of a literal block. *)
Definition is_code_line (line : string) : bool :=
  (String.prefix ">>>" line
   || String.prefix ".. code" line
   || String.prefix ".. sourcecode" line
   || String.prefix ".. doctest" line
   || String.prefix ".. testcode" line
   || ends_with "::" line)%bool.

Definition nonblank_lines (doc : list string) : list string :=
  filter (fun l => is_blank l = false) doc.

(** ** Shapes of corpus that the cells expect *)

#[global] Instance Q_eq_dec : EqDecision Q.
Proof. solve_decision. Defined.
#[global] Instance pyfloat_eq_dec : EqDecision pyfloat.
Proof. solve_decision. Defined.
#[global] Instance pyval_eq_dec : EqDecision pyval.
Proof. solve_decision. Defined.

(** The score of the utterance is [None] or a float, as the forecaster
    leaves it. *)
Definition scored (utt : Utterance) : Prop :=
  utt_meta utt !! "pred_score" = Some VNone \/
  exists f, utt_meta utt !! "pred_score" = Some (VFloat f).

(** The utterance has a score that is not [None] and is strictly greater
    than the threshold. *)
Definition above_threshold (utt : Utterance) : Prop :=
  exists q, utt_meta utt !! "pred_score" = Some (VFloat (FFin q)) /\
            (FORECAST_THRESH < q)%Q.

Definition in_test (c : Conversation) : Prop :=
  convo_meta c !! "split" = Some (VStr "test").

Definition test_convos (corpus : Corpus) : list Conversation :=
  filter in_test corpus.

(** Every conversation has a split; a test conversation has a Boolean
    label and scored utterances. *)
Definition labelled (c : Conversation) : Prop :=
  is_Some (convo_meta c !! "split") /\
  (in_test c ->
   (exists b, convo_meta c !! "conversation_has_personal_attack" = Some (VBool b)) /\
   Forall scored (convo_utterances c)).


(** The utterance carries the [is_section_header] flag. *)
Definition header_flagged (utt : Utterance) : Prop :=
  is_Some (utt_meta utt !! "is_section_header").

Definition is_comment (utt : Utterance) : bool :=
  match utt_meta utt !! "is_section_header" with
  | Some v => negb (py_truthy v)
  | None => false
  end.

(** The comments of a conversation: its utterances that are not section
    headers. *)
Definition considered (utts : list Utterance) : list Utterance :=
  filter (fun utt => is_comment utt = true) utts.

Definition float_scored (utt : Utterance) : Prop :=
  exists f, utt_meta utt !! "pred_score" = Some (VFloat f).

Definition none_scored (utt : Utterance) : Prop :=
  utt_meta utt !! "pred_score" = Some VNone.

(** A float score that does not pass the threshold. *)
Definition not_above (utt : Utterance) : Prop :=
  float_scored utt /\ ~ above_threshold utt.

(** The conversations that cell 11 selects: test conversations whose
    label is true. *)
Definition derailing (c : Conversation) : Prop :=
  in_test c /\
  exists v, convo_meta c !! "conversation_has_personal_attack" = Some v /\
            py_truthy v = true.

Definition above_thresholdb (utt : Utterance) : bool :=
  match utt_meta utt !! "pred_score" with
  | Some (VFloat (FFin q)) => Qltb FORECAST_THRESH q
  | _ => false
  end.

(** The comments that the scan of cell 11 examines, among those after
    the first: all of them up to the first one whose score passes the
    threshold, that one included. *)
Fixpoint examined (comments : list Utterance) : list Utterance :=
  match comments with
  | [] => []
  | utt :: rest => if above_thresholdb utt then [utt] else utt :: examined rest
  end.

(** What cell 11 needs of a conversation: a split, a label on a test
    conversation and, when the conversation is selected, the header flag
    on every utterance and a score that is not [None] on every comment
    that the scan examines. *)
Definition derail_ready (c : Conversation) : Prop :=
  is_Some (convo_meta c !! "split") /\
  (in_test c -> is_Some (convo_meta c !! "conversation_has_personal_attack")) /\
  (derailing c ->
   Forall header_flagged (convo_utterances c) /\
   Forall float_scored (examined (drop 1 (considered (convo_utterances c))))).

(** The event of cell 5 for an utterance: the call of the tokenizer on
    its text, with its outcome. *)
Definition tokenize_call (craft_model : CRAFTModel) (o : outcome) (utt : Utterance)
    : event :=
  Call (call_craft_tokenize (voc craft_model) (utt_text utt)) o.

(** The trace of a run in which nothing fails: every cell starts, and
    within it the calls that the cell makes return.  [tokenizer_calls]
    are the events of cell 5. *)
Definition run_trace (filename : string) (tokenizer_calls : list event)
    (preds labels : list Z) : list event :=
  [CellStart Imports]
  ++ map (fun st => Call (call_import st) Returned) cell1_statements
  ++ [CellStart LoadCorpus;
      Call (call_download "conversations-gone-awry-corpus") Returned;
      Call (call_Corpus filename) Returned;
      CellStart SetDevice; CellStart LoadModel;
      Call (call_CRAFTModel "cpu") Returned; CellStart Tokenize]
  ++ tokenizer_calls
  ++ [CellStart BuildForecaster;
      Call (call_Forecaster "prediction" "pred_score") Returned;
      CellStart RunTransform; Call call_transform Returned;
      CellStart Summarize; Call call_summarize Returned;
      CellStart Aggregate; CellStart ComputeMetrics;
      Call (call_precision_recall_fscore_support preds labels) Returned;
      CellStart CommentsUntilDerail; CellStart PlotHistogram]
  ++ map (fun f => Call (call_plt f) Returned) plot_calls.

(** A computation keeps the trace fail-stop: from a trace without a
    raised call it leaves either such a trace again, or one that ends in
    the raised call whose exception is the result. *)
Definition keeps_fail_stop {A} (m : M A) : Prop :=
  forall tr, clean tr ->
    clean (fst (m tr)) \/
    exists pre c e, fst (m tr) = pre ++ [Call c (Raised e)] /\ clean pre /\
                    snd (m tr) = Raise e.


(** ** Further shapes used in the statements about cells 9 to 12 *)

(** The label of a conversation as cell 9 records it. *)
Definition label_recorded (c : Conversation) (label : Z) : Prop :=
  exists b, convo_meta c !! "conversation_has_personal_attack" = Some (VBool b) /\
            label = (if b then 1 else 0).

(** A score that the comparison with the threshold accepts: [None]
    never reaches it, numbers compare, strings and lists do not. *)
Definition comparable_score (v : pyval) : Prop :=
  match v with
  | VStr _ | VToks _ => False
  | _ => True
  end.

(** What a successful run of cell 9 shows of a conversation. *)
Definition consolidable (c : Conversation) : Prop :=
  is_Some (convo_meta c !! "split") /\
  (in_test c ->
   is_Some (convo_meta c !! "conversation_has_personal_attack") /\
   Forall (fun utt => exists v, utt_meta utt !! "pred_score" = Some v /\
                                comparable_score v)
          (convo_utterances c)).

(** True negatives, F1 and false positive rate in the words of the
    notebook: a true negative is a case that does not derail and for
    which no positive forecast was made. *)
Definition TN (preds labels : list Z) : nat := count_where 0 0 preds labels.

Definition standard_f1 (preds labels : list Z) : pyfloat :=
  ratio (2 * TP preds labels)
        (2 * TP preds labels + FP preds labels + FN preds labels).

Definition standard_fpr (preds labels : list Z) : pyfloat :=
  match (FP preds labels + TN preds labels)%nat with
  | O => FNaN
  | _ => ratio (FP preds labels) (FP preds labels + TN preds labels)
  end.

(** A printed number is NaN or lies between 0 and 1. *)
Definition in_unit (f : pyfloat) : Prop :=
  match f with
  | FNaN => True
  | FFin q => (0 <= q /\ q <= 1)%Q
  end.

(** The score of the utterance passes the comparison of cell 11. *)
Definition passes (utt : Utterance) : Prop :=
  exists v, utt_meta utt !! "pred_score" = Some v /\
            py_gt v FORECAST_THRESH = Ok true.

(** [n] is the number of comments from the first positive forecast to
    the end: the first comment at a position [idx >= 1] whose score
    passes the threshold is [n] positions before the end of the
    comments. *)
Definition first_forecast (comments : list Utterance) (n : Z) : Prop :=
  exists idx utt,
    (1 <= idx)%nat /\ comments !! idx = Some utt /\ passes utt /\
    (forall j u, (1 <= j < idx)%nat -> comments !! j = Some u -> ~ passes u) /\
    n = Z.of_nat (length comments) - Z.of_nat idx.

(** The utterance after cell 5, when the tokenizer answers. *)
Definition tokenized_utt (w : World) (craft_model : CRAFTModel) (utt : Utterance)
    : Utterance :=
  match craft_tokenize w (voc craft_model) (utt_text utt) with
  | Ok toks => add_meta utt "tokens" (VToks toks)
  | Raise _ => utt
  end.

Definition tokenized_convo (w : World) (craft_model : CRAFTModel) (c : Conversation)
    : Conversation :=
  {| convo_id := convo_id c; convo_meta := convo_meta c;
     convo_utterances := map (tokenized_utt w craft_model) (convo_utterances c) |}.

(** The tokenizer answers on the text of the utterance. *)
Definition tokenizable (w : World) (craft_model : CRAFTModel) (utt : Utterance) : Prop :=
  is_ok (craft_tokenize w (voc craft_model) (utt_text utt)) = true.

(** A world whose tokenizer fails on one text. *)
Definition picky_world : World :=
  {| import_ := import_ example_world;
     download := download example_world;
     Corpus_init := Corpus_init example_world;
     CRAFTModel_init := CRAFTModel_init example_world;
     craft_tokenize := fun _ text =>
       if String.eqb text "that is wrong" then Raise (LibraryError "unknown word")
       else Ok [text];
     Forecaster_init := Forecaster_init example_world;
     Forecaster_transform := Forecaster_transform example_world;
     Forecaster_summarize := Forecaster_summarize example_world;
     plt := plt example_world |}.

Definition example_model : CRAFTModel :=
  {| device_type := "cpu"; voc := ["hello"; "there"] |}.

(** A world whose transform hands the corpus back without annotations. *)
Definition unannotating_world : World :=
  {| import_ := import_ example_world;
     download := download example_world;
     Corpus_init := Corpus_init example_world;
     CRAFTModel_init := CRAFTModel_init example_world;
     craft_tokenize := craft_tokenize example_world;
     Forecaster_init := Forecaster_init example_world;
     Forecaster_transform := fun _ corpus _ _ => Ok corpus;
     Forecaster_summarize := Forecaster_summarize example_world;
     plt := plt example_world |}.

(** A world in which the toolkit is not installed. *)
Definition bare_world : World :=
  {| import_ := fun st =>
       if String.prefix "convokit" st then Raise (ImportError st) else Ok tt;
     download := download example_world;
     Corpus_init := Corpus_init example_world;
     CRAFTModel_init := CRAFTModel_init example_world;
     craft_tokenize := craft_tokenize example_world;
     Forecaster_init := Forecaster_init example_world;
     Forecaster_transform := Forecaster_transform example_world;
     Forecaster_summarize := Forecaster_summarize example_world;
     plt := plt example_world |}.

(** A corpus after the transform, with a conversation of the training
    split between two test conversations. *)
Definition mixed_corpus : Corpus :=
  [fully_scored_convo;
   mk_convo "r2" "train" true [mk_utt "v1" "no score here" false];
   mk_convo "t5" "test" false
     [scored_utt "d" false VNone; scored_utt "e" false (VFloat (FFin (1 # 4)))]].


(** A computation raises only through a call: when it ends with an
    exception, the last event of the trace is the call that raised it. *)
Definition raises_by_call {A} (m : M A) : Prop :=
  forall tr e, snd (m tr) = Raise e ->
    exists pre c, fst (m tr) = pre ++ [Call c (Raised e)].

(** * Properties *)

(** ** Results *)

Lemma bind_Ok {A B} (r : result A) (f : A -> result B) (b : B) :
  bind r f = Ok b -> exists a, r = Ok a /\ f a = Ok b.
Proof. destruct r as [a|e]; simpl; [eauto | discriminate]. Qed.

Lemma getitem_Some meta key v : meta !! key = Some v -> getitem meta key = Ok v.
Proof. unfold getitem. by intros ->. Qed.

Lemma getitem_agree (keys : list string) (m1 m2 : gmap string pyval) key :
  key ∈ keys -> (forall k, k ∈ keys -> m1 !! k = m2 !! k) ->
  getitem m1 key = getitem m2 key.
Proof. intros Hin Hag. unfold getitem. by rewrite (Hag _ Hin). Qed.

Lemma Qltb_lt (x y : Q) : Qltb x y = true <-> (x < y)%Q.
Proof.
  unfold Qltb. rewrite negb_true_iff. split.
  - intros H. apply Qnot_le_lt. intros Hle.
    apply Qle_bool_iff in Hle. congruence.
  - intros H. destruct (Qle_bool y x) eqn:E; [|done].
    apply Qle_bool_iff in E. exfalso. by apply (Qlt_not_le x y).
Qed.

(** ** Cell 6: the text handed to the model *)

(** C8. For an utterance whose [tokens] field holds a list, [text_func]
    returns the first [MAX_LENGTH - 1 = 79] elements of that list: a
    list of at most 79 tokens, whatever the length of the original. *)
Theorem text_func_truncates (utt : Utterance) (toks : list string) :
  utt_meta utt !! "tokens" = Some (VToks toks) ->
  text_func utt = Ok (VToks (take 79 toks)) /\
  (length (take 79 toks) <= 79)%nat /\
  length (take 79 toks) = Nat.min 79 (length toks).
Proof.
  intros Htok. unfold text_func. rewrite (getitem_Some _ _ _ Htok). simpl.
  split; [reflexivity|]. rewrite length_take.
  split; [apply Nat.le_min_l | reflexivity].
Qed.

Lemma text_func_truncates_witness :
  text_func long_utt = Ok (VToks (take 79 (replicate 200 "tok"))) /\
  (length (take 79 (replicate 200 "tok")) <= 79)%nat /\
  length (take 79 (replicate 200 "tok")) = Nat.min 79 (length (replicate 200 "tok")).
Proof. apply (text_func_truncates long_utt (replicate 200 "tok")). reflexivity. Defined.

(** ** Cell 9: the consolidated prediction *)

Lemma py_eq_str_true v s : py_eq_str v s = true <-> v = VStr s.
Proof.
  destruct v; simpl; try (split; [discriminate | congruence]).
  rewrite String.eqb_eq. split; congruence.
Qed.

Lemma is_test_in_test c :
  is_Some (convo_meta c !! "split") ->
  is_test c = Ok (bool_decide (in_test c)).
Proof.
  intros [v Hv]. unfold is_test, in_test.
  rewrite (getitem_Some _ _ _ Hv), Hv. simpl. f_equal.
  destruct (py_eq_str v "test") eqn:E.
  - apply py_eq_str_true in E. subst v. by rewrite bool_decide_eq_true_2.
  - rewrite bool_decide_eq_false_2; [done|].
    intros [= ->]. discriminate E.
Qed.

Lemma consolidate_utts_spec (utts : list Utterance) (p0 : Z) :
  Forall scored utts ->
  exists p, consolidate_utts utts p0 = Ok p /\
            (p = 1 <-> p0 = 1 \/ Exists above_threshold utts) /\
            (p = p0 \/ p = 1).
Proof.
  intros Hs. revert p0. induction Hs as [|utt rest Hu _ IH]; intros p0; simpl.
  - exists p0. split; [done|]. split; [|by left].
    rewrite Exists_nil. tauto.
  - assert (Hhit : exists hit : bool,
      (v <- getitem (utt_meta utt) "pred_score" ;;
       if py_is_not_None v
       then (v' <- getitem (utt_meta utt) "pred_score" ;; py_gt v' FORECAST_THRESH)
       else Ok false) = Ok hit /\ (hit = true <-> above_threshold utt)).
    { destruct Hu as [Hn | [[|q] Hf]].
      - exists false. rewrite (getitem_Some _ _ _ Hn). simpl. split; [done|].
        split; [done|]. intros (q & Hq & _). congruence.
      - exists false. rewrite (getitem_Some _ _ _ Hf). simpl. split; [done|].
        split; [done|]. intros (q & Hq & _). congruence.
      - exists (Qltb FORECAST_THRESH q). rewrite (getitem_Some _ _ _ Hf). simpl. split; [done|].
        rewrite Qltb_lt. split.
        + intros Hlt. by exists q.
        + intros (q' & Hq' & Hlt). congruence. }
    destruct Hhit as (hit & Heq & Hiff).
    unfold bind in Heq |- *.
    destruct (getitem (utt_meta utt) "pred_score") as [v|e]; [|discriminate].
    rewrite Heq.
    destruct (IH (if hit then 1 else p0)) as (p & Hp & Hone & Hcases).
    exists p. split; [done|]. rewrite Exists_cons. destruct hit.
    + destruct Hiff as [Hab _]. specialize (Hab eq_refl).
      assert (p = 1) by (apply Hone; by left). subst p. split; [|by right].
      split; [intros _; right; by left | done].
    + assert (Hno : ~ above_threshold utt) by (intros Ha; apply Hiff in Ha; discriminate).
      split; [|done]. rewrite Hone. tauto.
Qed.

Lemma consolidate_body_eq (convo : Conversation) (preds labels : list Z) :
  consolidate_body convo (preds, labels) =
  (v <- getitem (convo_meta convo) "conversation_has_personal_attack" ;;
   label <- py_int v ;;
   prediction <- consolidate_utts (convo_utterances convo) 0 ;;
   Ok (preds ++ [prediction], labels ++ [label])).
Proof. reflexivity. Qed.

Lemma consolidate_loop_spec (corpus : Corpus) (preds0 labels0 : list Z) :
  Forall labelled corpus ->
  exists preds labels,
    for_conversations is_test consolidate_body corpus (preds0, labels0)
      = Ok (preds0 ++ preds, labels0 ++ labels) /\
    length labels = length preds /\ binary preds /\ binary labels /\
    Forall2 (fun c p => (p = 1 <-> Exists above_threshold (convo_utterances c)) /\
                        (p = 0 <-> ~ Exists above_threshold (convo_utterances c)))
            (test_convos corpus) preds.
Proof.
  intros Hwf. revert preds0 labels0.
  induction Hwf as [|c rest [Hsplit Htest] _ IH]; intros preds0 labels0.
  - exists [], []. simpl. rewrite !app_nil_r. repeat split; constructor.
  - unfold test_convos. rewrite filter_cons. fold (test_convos rest).
    cbn [for_conversations]. rewrite (is_test_in_test c Hsplit).
    cbn [bind]. destruct (decide (in_test c)) as [Hin|Hout].
    + rewrite bool_decide_eq_true_2 by done.
      destruct (Htest Hin) as [[b Hb] Hscored].
      destruct (consolidate_utts_spec (convo_utterances c) 0 Hscored)
        as (p & Hp & Hone & Hcases).
      rewrite consolidate_body_eq, (getitem_Some _ _ _ Hb). cbn [bind py_int].
      rewrite Hp. cbn [bind].
      destruct (IH (preds0 ++ [p]) (labels0 ++ [if b then 1 else 0]))
        as (preds & labels & Heq & Hlen & Hbp & Hbl & Hall).
      exists (p :: preds), ((if b then 1 else 0) :: labels).
      rewrite Heq, <- !app_assoc. simpl. split; [done|].
      split; [by rewrite Hlen|]. split; [constructor; [lia | done]|].
      split; [constructor; [destruct b; lia | done]|].
      constructor; [|done]. split.
      * rewrite Hone. split; [intros [?|?]; [lia | done] | by right].
      * split.
        -- intros -> Hex. assert (0 = 1) by (apply Hone; by right). lia.
        -- intros Hno. destruct Hcases as [? | ->]; [done|].
           exfalso. apply Hno. destruct Hone as [[?|?] _]; [done | lia | done].
    + rewrite bool_decide_eq_false_2 by done. simpl. apply IH.
Qed.

(** C5. On a corpus in which every conversation has a split and every
    test conversation has a Boolean label and utterances whose
    [pred_score] is [None] or a float, cell 9 returns one prediction per
    test conversation, in order; the prediction is 1 exactly when some
    utterance of the conversation has a score that is not [None] and is
    strictly greater than [FORECAST_THRESH = 0.570617], and 0 exactly
    when none has. *)
Theorem consolidate_prediction (corpus : Corpus) :
  Forall labelled corpus ->
  exists preds labels,
    consolidate corpus = Ok (preds, labels) /\
    Forall2 (fun c p => (p = 1 <-> Exists above_threshold (convo_utterances c)) /\
                        (p = 0 <-> ~ Exists above_threshold (convo_utterances c)))
            (test_convos corpus) preds.
Proof.
  intros Hwf.
  destruct (consolidate_loop_spec corpus [] [] Hwf)
    as (preds & labels & Heq & _ & _ & _ & Hall).
  exists preds, labels. split; [exact Heq | exact Hall].
Qed.

Ltac solve_lookup := vm_compute; reflexivity.

Ltac solve_scored :=
  repeat (apply List.Forall_cons;
          [first [ left; solve_lookup | right; eexists; solve_lookup ] |]);
  apply List.Forall_nil.

Ltac solve_labelled :=
  split; [eexists; solve_lookup | intros _; split; [eexists; solve_lookup | solve_scored]].

Lemma example_labelled : Forall labelled [unscored_convo; fully_scored_convo].
Proof.
  apply List.Forall_cons; [solve_labelled|].
  apply List.Forall_cons; [solve_labelled|].
  apply List.Forall_nil.
Defined.

Lemma consolidate_prediction_witness :
  Forall labelled [unscored_convo; fully_scored_convo] /\
  exists preds labels,
    consolidate [unscored_convo; fully_scored_convo] = Ok (preds, labels) /\
    Forall2 (fun c p => (p = 1 <-> Exists above_threshold (convo_utterances c)) /\
                        (p = 0 <-> ~ Exists above_threshold (convo_utterances c)))
            (test_convos [unscored_convo; fully_scored_convo]) preds.
Proof.
  split; [exact example_labelled|].
  apply (consolidate_prediction [unscored_convo; fully_scored_convo] example_labelled).
Defined.

(** ** Cell 11: the unguarded comparison *)

Lemma for_conversations_app {S} (selector : Conversation -> result bool)
    (body : Conversation -> S -> result S) (l1 l2 : list Conversation) (s : S) :
  for_conversations selector body (l1 ++ l2) s =
  (s' <- for_conversations selector body l1 s ;;
   for_conversations selector body l2 s').
Proof.
  revert s. induction l1 as [|c l1 IH]; intros s; simpl; [done|].
  destruct (selector c) as [sel|e]; simpl; [|done].
  destruct (if sel then body c s else Ok s) as [s'|e]; simpl; [|done].
  apply IH.
Qed.

Lemma non_header_utts_considered (utts : list Utterance) :
  Forall header_flagged utts -> non_header_utts utts = Ok (considered utts).
Proof.
  induction 1 as [|utt rest [v Hv] _ IH]; simpl; [done|].
  assert (Hc : is_comment utt = negb (py_truthy v)) by (unfold is_comment; by rewrite Hv).
  rewrite (getitem_Some _ _ _ Hv), IH. simpl. unfold considered.
  rewrite filter_cons, Hc. by destruct (py_truthy v).
Qed.

Lemma py_gt_float (f : pyfloat) :
  exists hit, py_gt (VFloat f) FORECAST_THRESH = Ok hit /\
              (hit = true <-> exists q, f = FFin q /\ (FORECAST_THRESH < q)%Q).
Proof.
  destruct f as [|q]; simpl.
  - exists false. split; [done|]. split; [done|]. by intros (q & ? & _).
  - exists (Qltb FORECAST_THRESH q). split; [done|]. rewrite Qltb_lt. split.
    + intros Hlt. by exists q.
    + by intros (q' & [= <-] & Hlt).
Qed.

Lemma above_thresholdb_spec (utt : Utterance) :
  above_thresholdb utt = true <-> above_threshold utt.
Proof.
  unfold above_thresholdb, above_threshold. split.
  - destruct (utt_meta utt !! "pred_score") as [[| | |[|q]| |]|]; try discriminate.
    intros Hlt. exists q. split; [done | by apply Qltb_lt].
  - intros (q & -> & Hlt). by apply Qltb_lt.
Qed.

Lemma derail_scan_total (skipped rest : list Utterance) (derail_idx : Z) :
  Forall float_scored (examined rest) ->
  exists found,
    derail_scan (skipped ++ rest) derail_idx (seq (length skipped) (length rest))
    = Ok found.
Proof.
  revert skipped. induction rest as [|utt rest IH]; intros skipped Hfl; simpl.
  - by eexists.
  - rewrite lookup_app_r, Nat.sub_diag by lia. simpl.
    assert (Hutt : float_scored utt).
    { simpl in Hfl. destruct (above_thresholdb utt); by apply Forall_cons in Hfl as [? _]. }
    destruct Hutt as [f Hf]. rewrite (getitem_Some _ _ _ Hf). cbn [bind].
    destruct (py_gt_float f) as (hit & -> & Hhit). cbn [bind].
    destruct hit; [by eexists|].
    assert (Hb : above_thresholdb utt = false).
    { destruct (above_thresholdb utt) eqn:E; [|done].
      apply above_thresholdb_spec in E as (q & Hq & Hlt).
      assert (false = true) as Habs; [|discriminate Habs].
      apply Hhit. exists q. split; [congruence | done]. }
    simpl in Hfl. rewrite Hb in Hfl. apply Forall_cons in Hfl as [_ Hfl].
    specialize (IH (skipped ++ [utt]) Hfl).
    rewrite <- app_assoc, length_app in IH. simpl in IH.
    by rewrite Nat.add_1_r in IH.
Qed.

Lemma derail_scan_fail (skipped pre post : list Utterance) (u : Utterance)
    (derail_idx : Z) :
  Forall not_above pre -> none_scored u ->
  derail_scan (skipped ++ pre ++ u :: post) derail_idx
              (seq (length skipped) (length (pre ++ u :: post)))
  = Raise TypeError.
Proof.
  intros Hpre Hu. revert skipped.
  induction Hpre as [|v pre [[f Hf] Hno] _ IH]; intros skipped; simpl.
  - rewrite lookup_app_r, Nat.sub_diag by lia. simpl.
    by rewrite (getitem_Some _ _ _ Hu).
  - rewrite lookup_app_r, Nat.sub_diag by lia. simpl.
    rewrite (getitem_Some _ _ _ Hf). cbn [bind].
    destruct (py_gt_float f) as (hit & -> & Hhit). simpl.
    destruct hit.
    + exfalso. apply Hno. destruct Hhit as [Hab _].
      destruct (Hab eq_refl) as (q & -> & Hlt). by exists q.
    + specialize (IH (skipped ++ [v])).
      rewrite <- app_assoc, length_app in IH. simpl in IH.
      by rewrite Nat.add_1_r in IH.
Qed.

Lemma is_derailing_test_total (c : Conversation) :
  is_Some (convo_meta c !! "split") ->
  (in_test c -> is_Some (convo_meta c !! "conversation_has_personal_attack")) ->
  exists sel, is_derailing_test c = Ok sel /\ (sel = true -> derailing c).
Proof.
  intros [v Hv] Hlab. unfold is_derailing_test.
  rewrite (getitem_Some _ _ _ Hv). simpl.
  destruct (py_eq_str v "test") eqn:E; [|by eexists].
  apply py_eq_str_true in E. subst v.
  destruct (Hlab Hv) as [w Hw]. rewrite (getitem_Some _ _ _ Hw). simpl.
  eexists. split; [done|]. intros Ht. split; [done|]. by exists w.
Qed.

Lemma derail_body_total (c : Conversation) (m : gmap string Z) :
  Forall header_flagged (convo_utterances c) ->
  Forall float_scored (examined (drop 1 (considered (convo_utterances c)))) ->
  exists m', derail_body c m = Ok m'.
Proof.
  intros Hflag Hfl. unfold derail_body.
  rewrite (non_header_utts_considered _ Hflag). simpl.
  set (utts := considered (convo_utterances c)) in *.
  assert (Hscan : exists found,
            derail_scan utts (Z.of_nat (length utts) - 1) (range 1 (length utts))
            = Ok found).
  { unfold range. destruct utts as [|first rest]; [by eexists|].
    simpl in Hfl. rewrite drop_0 in Hfl.
    replace (length (first :: rest) - 1)%nat with (length rest) by (simpl; lia).
    apply (derail_scan_total [first] rest _ Hfl). }
  destruct Hscan as [found ->]. simpl. by eexists.
Qed.

Lemma derail_loop_total (corpus : Corpus) (m : gmap string Z) :
  Forall derail_ready corpus ->
  exists m', for_conversations is_derailing_test derail_body corpus m = Ok m'.
Proof.
  intros Hr. revert m.
  induction Hr as [|c rest (Hsplit & Hlab & Hsel) _ IH]; intros m; simpl.
  - by eexists.
  - destruct (is_derailing_test_total c Hsplit Hlab) as (sel & -> & Hd). simpl.
    destruct sel.
    + destruct (Hsel (Hd eq_refl)) as [Hflag Hfl].
      destruct (derail_body_total c m Hflag Hfl) as [m' ->]. simpl. apply IH.
    + simpl. apply IH.
Qed.

Lemma derail_body_fail (c : Conversation) (m : gmap string Z)
    (pre post : list Utterance) (u : Utterance) :
  Forall header_flagged (convo_utterances c) ->
  considered (convo_utterances c) = pre ++ u :: post ->
  pre <> [] -> Forall not_above (drop 1 pre) -> none_scored u ->
  derail_body c m = Raise TypeError.
Proof.
  intros Hflag Hcons Hne Hpre Hu. unfold derail_body.
  rewrite (non_header_utts_considered _ Hflag), Hcons. simpl.
  destruct pre as [|first pre]; [done|]. simpl in Hpre. rewrite drop_0 in Hpre.
  unfold range.
  replace (length ((first :: pre) ++ u :: post) - 1)%nat
    with (length (pre ++ u :: post)) by (simpl; lia).
  pose proof (derail_scan_fail [first] pre post u
                (Z.of_nat (length ((first :: pre) ++ u :: post)) - 1) Hpre Hu) as Hfail.
  simpl in Hfail |- *. by rewrite Hfail.
Qed.

(** C7. Cell 11 is total when, in every conversation it selects, every
    comment that the scan examines (the comments after the first, up to
    the first one that passes the threshold) has a score that is not
    [None]; and it fails with
    [TypeError] as soon as a derailing test conversation has a comment at
    position 1 or later whose score is [None] and no comment between
    position 1 and that one passes the threshold.  The loop of cell 9,
    which tests [is not None] first, returns on the utterances of the
    same conversation. *)
Theorem comments_until_derail_needs_scores :
  (forall corpus : Corpus,
     Forall derail_ready corpus ->
     exists m, comments_until_derail corpus = Ok m) /\
  (forall (before after : Corpus) (c : Conversation) (m : gmap string Z)
          (pre post : list Utterance) (u : Utterance),
     for_conversations is_derailing_test derail_body before ∅ = Ok m ->
     is_derailing_test c = Ok true ->
     Forall header_flagged (convo_utterances c) ->
     considered (convo_utterances c) = pre ++ u :: post ->
     pre <> [] -> Forall not_above (drop 1 pre) -> none_scored u ->
     comments_until_derail (before ++ c :: after) = Raise TypeError /\
     (Forall scored (convo_utterances c) ->
      exists p, consolidate_utts (convo_utterances c) 0 = Ok p)).
Proof.
  split.
  - intros corpus Hr. apply derail_loop_total, Hr.
  - intros before after c m pre post u Hbefore Hsel Hflag Hcons Hne Hpre Hu. split.
    + unfold comments_until_derail. rewrite for_conversations_app, Hbefore.
      simpl. rewrite Hsel. simpl.
      by rewrite (derail_body_fail c m pre post u Hflag Hcons Hne Hpre Hu).
    + intros Hs. destruct (consolidate_utts_spec _ 0 Hs) as (p & Hp & _).
      by exists p.
Qed.

Ltac solve_flagged :=
  repeat (apply List.Forall_cons; [eexists; solve_lookup |]); apply List.Forall_nil.

Lemma comments_until_derail_needs_scores_witness :
  Forall derail_ready [fully_scored_convo] /\
  (exists m, comments_until_derail [fully_scored_convo] = Ok m) /\
  none_scored (scored_utt "b" false VNone) /\
  comments_until_derail ([] ++ unscored_convo :: []) = Raise TypeError /\
  exists p, consolidate_utts (convo_utterances unscored_convo) 0 = Ok p.
Proof.
  assert (Hready : Forall derail_ready [fully_scored_convo]).
  { apply List.Forall_cons; [|apply List.Forall_nil].
    split; [eexists; solve_lookup|].
    split; [intros _; eexists; solve_lookup|].
    intros _. split; [solve_flagged|].
    change (Forall float_scored
              [scored_utt "b" false (VFloat (FFin (1 # 8)));
               scored_utt "c" false (VFloat (FFin (7 # 8)))]).
    repeat (apply List.Forall_cons; [eexists; solve_lookup |]).
    apply List.Forall_nil. }
  assert (Hnone : none_scored (scored_utt "b" false VNone)) by solve_lookup.
  destruct comments_until_derail_needs_scores as [Htotal Hfail].
  split; [exact Hready|]. split; [exact (Htotal _ Hready)|].
  split; [exact Hnone|].
  assert (Hscored : Forall scored (convo_utterances unscored_convo)) by solve_scored.
  refine ((fun H => conj (proj1 H) (proj2 H Hscored))
            (Hfail [] [] unscored_convo ∅
               [scored_utt "a" false VNone]
               [scored_utt "c" false (VFloat (FFin (7 # 8)))]
               (scored_utt "b" false VNone) _ _ _ _ _ _ Hnone)).
  - reflexivity.
  - vm_compute. reflexivity.
  - solve_flagged.
  - vm_compute. reflexivity.
  - discriminate.
  - apply List.Forall_nil.
Defined.

(** ** Cell 10: what the printed numbers are *)

Lemma binary_distinct (l : list Z) :
  binary l ->
  (length (distinct_values l) <= 2)%nat /\
  (1 ∉ distinct_values l -> (length (distinct_values l) <= 1)%nat).
Proof.
  intros Hb. unfold distinct_values.
  assert (Hnd : NoDup (remove_dups l)) by apply NoDup_remove_dups.
  assert (Hin : forall x, x ∈ remove_dups l -> x = 0 \/ x = 1).
  { intros x Hx. rewrite elem_of_remove_dups in Hx.
    unfold binary in Hb. rewrite Forall_forall in Hb. by apply Hb. }
  split.
  - change 2%nat with (length [0; 1]). apply submseteq_length.
    apply NoDup_submseteq; [done|]. intros x Hx.
    destruct (Hin x Hx) as [-> | ->]; [by left | by right; left].
  - intros Hno. change 1%nat with (length [0]). apply submseteq_length.
    apply NoDup_submseteq; [done|]. intros x Hx.
    destruct (Hin x Hx) as [-> | ->]; [by left | done].
Qed.

Lemma prf_binary (y_true y_pred : list Z) :
  binary y_true -> binary y_pred -> length y_true = length y_pred ->
  precision_recall_fscore_support y_true y_pred =
  Ok (ratio (count_cells true true y_true y_pred)
            (count_cells true true y_true y_pred + count_cells false true y_true y_pred),
      ratio (count_cells true true y_true y_pred)
            (count_cells true true y_true y_pred + count_cells true false y_true y_pred),
      ratio (2 * count_cells true true y_true y_pred)
            (2 * count_cells true true y_true y_pred
             + count_cells false true y_true y_pred
             + count_cells true false y_true y_pred)).
Proof.
  intros Ht Hp Hlen. unfold precision_recall_fscore_support.
  assert (Hb : binary (y_true ++ y_pred)) by (apply Forall_app; done).
  destruct (binary_distinct _ Hb) as [Hle Hone].
  set (present := distinct_values (y_true ++ y_pred)) in *.
  assert (Hthird : (negb (bool_decide (1 ∈ present)) && Nat.leb 2 (length present))%bool
                   = false).
  { destruct (decide (1 ∈ present)) as [Hin|Hout].
    - by rewrite bool_decide_eq_true_2.
    - rewrite bool_decide_eq_false_2 by done. cbn [negb andb].
      apply Nat.leb_gt. specialize (Hone Hout). lia. }
  rewrite Hlen, Nat.eqb_refl, Hthird. cbn [negb].
  destruct (Nat.ltb_spec 2 (length present)); [lia|reflexivity].
Qed.

(** With the predictions in the place of [y_true] and the labels in the
    place of [y_pred], the cells counted as false positives by the
    library are the false negatives of the notebook, and the other way
    round. *)
Lemma count_cells_swapped (preds labels : list Z) :
  binary preds -> binary labels ->
  count_cells true true preds labels = TP preds labels /\
  count_cells false true preds labels = FN preds labels /\
  count_cells true false preds labels = FP preds labels.
Proof.
  intros Hp. revert labels.
  induction Hp as [|p preds Hp0 _ IH]; intros labels Hl; [done|].
  destruct Hl as [|l labels Hl0 Hl]; [done|].
  destruct (IH labels Hl) as (Htp & Hfn & Hfp).
  unfold TP, FN, FP, count_where, count_cells in *. simpl zip.
  rewrite !filter_cons.
  destruct Hp0 as [-> | ->], Hl0 as [-> | ->];
    repeat case_decide; simpl in *; try tauto; try lia;
    repeat match goal with
           | H : _ /\ _ |- _ => destruct H
           | H : ~ (_ /\ _) |- _ => exfalso; apply H; split; reflexivity
           | H : (0 = 1)%Z |- _ => discriminate H
           | H : (1 = 0)%Z |- _ => discriminate H
           end.
Qed.

Lemma sum_correct (preds labels : list Z) :
  (fold_right Qplus 0 (map Q_of_bool (zip_with Z.eqb preds labels))
   == inject_Z (Z.of_nat (correct preds labels)))%Q.
Proof.
  unfold correct. revert labels.
  induction preds as [|p preds IH]; intros [|l labels]; simpl; try reflexivity.
  rewrite filter_cons, IH. simpl. destruct (Z.eqb_spec p l) as [Heq|Hne]; simpl.
  - rewrite decide_True by done. simpl length.
    rewrite Nat2Z.inj_succ, <- Z.add_1_l, inject_Z_plus. reflexivity.
  - rewrite decide_False by done. apply Qplus_0_l.
Qed.

(** On Boolean arrays of one length, the cell prints the accuracy; the
    number it prints as precision is tp / (tp + fn) and the number it
    prints as recall is tp / (tp + fp). *)
Lemma metrics_cell_swaps (preds labels : list Z) :
  binary preds -> binary labels -> length preds = length labels ->
  exists m, metrics_cell preds labels = Ok m /\
            feq (acc m) (standard_accuracy preds labels) /\
            precision m = standard_recall preds labels /\
            recall m = standard_precision preds labels.
Proof.
  intros Hp Hl Hlen. unfold metrics_cell.
  rewrite (prf_binary preds labels Hp Hl Hlen). cbn [bind].
  destruct (count_cells_swapped preds labels Hp Hl) as (-> & -> & ->).
  eexists. split; [reflexivity|]. cbn [acc precision recall].
  split; [|done].
  unfold array_eq, standard_accuracy. rewrite Hlen, Nat.eqb_refl.
  destruct preds as [|p preds], labels as [|l labels]; try discriminate; [done|].
  cbn [zip_with map np_mean ratio length feq].
  rewrite <- (sum_correct (p :: preds) (l :: labels)).
  assert (Hlen' : length labels = length preds) by (simpl in Hlen; lia).
  cbn [zip_with map length].
  rewrite length_map, length_zip_with_l_eq, ?Hlen' by (simpl in Hlen; lia).
  reflexivity.
Qed.

(** C1. On the example corpus (two test conversations, both forecast
    positive, only the first one derailing) the predictions are [1; 1]
    and the labels [1; 0]: tp = 1, fp = 1, fn = 0.  The accuracy printed
    is the fraction of correct predictions, 1/2.  The number printed as
    precision is 1, which is tp / (tp + fn), while tp / (tp + fp) is
    1/2; the number printed as recall is 1/2, which is tp / (tp + fp),
    while tp / (tp + fn) is 1: cell 10 passes the predictions where the
    library expects the ground truth, so the two are exchanged. *)
Theorem metrics_precision_recall_exchanged :
  exists final,
    snd (run example_world) = Ok final /\
    final_preds final = [1; 1] /\ final_labels final = [1; 0] /\
    metrics_cell (final_preds final) (final_labels final) = Ok (final_metrics final) /\
    TP [1; 1] [1; 0] = 1%nat /\ FP [1; 1] [1; 0] = 1%nat /\ FN [1; 1] [1; 0] = 0%nat /\
    feq (acc (final_metrics final)) (standard_accuracy [1; 1] [1; 0]) /\
    precision (final_metrics final) = FFin 1 /\
    standard_precision [1; 1] [1; 0] = FFin (1 # 2) /\
    recall (final_metrics final) = FFin (1 # 2) /\
    standard_recall [1; 1] [1; 0] = FFin 1 /\
    ~ feq (precision (final_metrics final)) (standard_precision [1; 1] [1; 0]) /\
    ~ feq (recall (final_metrics final)) (standard_recall [1; 1] [1; 0]).
Proof.
  eexists. split; [vm_compute; reflexivity|]. cbn [final_preds final_labels final_metrics].
  repeat split; try (vm_compute; reflexivity).
  - intros H. vm_compute in H. discriminate H.
  - intros H. vm_compute in H. discriminate H.
Qed.

(** ** Runs of the notebook *)

Lemma mbind_Ok {A B} (m : M A) (f : A -> M B) tr tr' (b : B) :
  mbind m f tr = (tr', Ok b) ->
  exists a tr1, m tr = (tr1, Ok a) /\ f a tr1 = (tr', Ok b).
Proof.
  unfold mbind. destruct (m tr) as [tr1 [a|e]]; [eauto | discriminate].
Qed.

Lemma ext_Ok {A} (c : ext_call) (r : result A) tr tr' (a : A) :
  ext c r tr = (tr', Ok a) -> r = Ok a /\ tr' = tr ++ [Call c Returned].
Proof. unfold ext. intros [= <- ->]. done. Qed.

Lemma lift_Ok {A} (r : result A) tr tr' (a : A) :
  lift r tr = (tr', Ok a) -> r = Ok a /\ tr' = tr.
Proof. unfold lift. by intros [= <- ->]. Qed.

Lemma ret_Ok {A} (x : A) tr tr' (a : A) :
  ret x tr = (tr', Ok a) -> x = a /\ tr' = tr.
Proof. unfold ret. by intros [= <- ->]. Qed.

Lemma for_each_Ok {A} (f : A -> M A) (g : A -> list event) (R : A -> A -> Prop) :
  (forall a tr tr' a', f a tr = (tr', Ok a') -> tr' = tr ++ g a /\ R a a') ->
  forall l tr tr' l',
    for_each f l tr = (tr', Ok l') ->
    tr' = tr ++ concat (map g l) /\ Forall2 R l l'.
Proof.
  intros Hf. induction l as [|a l IH]; intros tr tr' l' Hrun; simpl in Hrun.
  - apply ret_Ok in Hrun as [<- ->]. simpl. by rewrite app_nil_r.
  - apply mbind_Ok in Hrun as (a' & tr1 & Ha & Hrun).
    apply mbind_Ok in Hrun as (rest' & tr2 & Hrest & Hrun).
    apply ret_Ok in Hrun as [<- ->].
    apply Hf in Ha as [-> HR]. apply IH in Hrest as [-> Hall].
    split; [by rewrite <- app_assoc | by constructor].
Qed.

Lemma concat_map_unit {A B} (h : A -> B) (l : list A) :
  concat (map (fun x => [h x]) l) = map h l.
Proof. induction l as [|x l IH]; simpl; [done | by rewrite IH]. Qed.

Lemma concat_map_map {A B C} (h : B -> C) (k : A -> list B) (l : list A) :
  concat (map (fun x => map h (k x)) l) = map h (concat (map k l)).
Proof. induction l as [|x l IH]; simpl; [done | by rewrite map_app, IH]. Qed.

Lemma tokenize_utt_Ok w craft_model utt tr tr' utt' :
  tokenize_utt w craft_model utt tr = (tr', Ok utt') ->
  tr' = tr ++ [Call (call_craft_tokenize (voc craft_model) (utt_text utt)) Returned] /\
  utt_written ["tokens"] utt utt'.
Proof.
  unfold tokenize_utt. intros Hrun.
  apply mbind_Ok in Hrun as (toks & tr1 & Hext & Hrun).
  apply ext_Ok in Hext as [_ ->]. apply ret_Ok in Hrun as [<- ->].
  split; [done|]. repeat split; try done.
  intros k Hk. simpl. rewrite lookup_insert_ne; [done|].
  intros <-. apply Hk. by left.
Qed.

Lemma tokenize_convo_Ok w craft_model c tr tr' c' :
  tokenize_convo w craft_model c tr = (tr', Ok c') ->
  tr' = tr ++ map (fun utt => Call (call_craft_tokenize (voc craft_model) (utt_text utt))
                                   Returned) (convo_utterances c) /\
  convo_written ["tokens"] c c'.
Proof.
  unfold tokenize_convo. intros Hrun.
  apply mbind_Ok in Hrun as (utts & tr1 & Hloop & Hrun).
  apply ret_Ok in Hrun as [<- ->].
  eapply (for_each_Ok _ (fun utt => [Call (call_craft_tokenize (voc craft_model)
                                                               (utt_text utt)) Returned]))
    in Hloop as [-> Hall]; [|apply tokenize_utt_Ok].
  split; [|by repeat split].
  f_equal. apply concat_map_unit.
Qed.

Lemma tokenize_Ok w craft_model (corpus : Corpus) tr tr' (corpus' : Corpus) :
  tokenize w craft_model corpus tr = (tr', Ok corpus') ->
  tr' = tr ++ map (fun utt => Call (call_craft_tokenize (voc craft_model) (utt_text utt))
                                   Returned) (iter_utterances corpus) /\
  corpus_written ["tokens"] corpus corpus'.
Proof.
  unfold tokenize. intros Hrun.
  eapply (for_each_Ok _ (fun c => map (fun utt => Call (call_craft_tokenize
                                          (voc craft_model) (utt_text utt)) Returned)
                                      (convo_utterances c)))
    in Hrun as [-> Hall]; [|apply tokenize_convo_Ok].
  split; [|done]. f_equal. unfold iter_utterances. apply concat_map_map.
Qed.

(** After cell 5 every utterance holds a token list, so that
    [text_func] hands at most 79 tokens of it to the model. *)
Lemma tokenize_utt_tokens w craft_model utt tr tr' utt' :
  tokenize_utt w craft_model utt tr = (tr', Ok utt') ->
  exists toks, utt_meta utt' !! "tokens" = Some (VToks toks).
Proof.
  unfold tokenize_utt. intros Hrun.
  apply mbind_Ok in Hrun as (toks & tr1 & _ & Hrun).
  apply ret_Ok in Hrun as [<- _]. exists toks. simpl. apply lookup_insert_eq.
Qed.

Lemma tokenize_sets_tokens w craft_model (corpus : Corpus) tr tr' (corpus' : Corpus) :
  tokenize w craft_model corpus tr = (tr', Ok corpus') ->
  Forall (fun utt => exists toks,
            text_func utt = Ok (VToks (take 79 toks)) /\
            (length (take 79 toks) <= 79)%nat)
         (iter_utterances corpus').
Proof.
  unfold tokenize. intros Hrun.
  eapply (for_each_Ok _ (fun c => map (fun utt => Call (call_craft_tokenize
                                          (voc craft_model) (utt_text utt)) Returned)
                                      (convo_utterances c))
            (fun _ c' => Forall (fun utt => exists toks,
                                   utt_meta utt !! "tokens" = Some (VToks toks))
                                (convo_utterances c')))
    in Hrun as [_ Hall].
  - unfold iter_utterances. apply Forall_concat, Forall_fmap.
    clear -Hall. induction Hall as [|c c' l l' Hc _ IH]; constructor; [|done].
    simpl. eapply Forall_impl; [exact Hc|]. intros utt [toks Htoks].
    exists toks. unfold text_func. rewrite (getitem_Some _ _ _ Htoks). simpl.
    split; [done|]. rewrite length_take. apply Nat.le_min_l.
  - intros c tr0 tr0' c' Hc. split; [by apply tokenize_convo_Ok in Hc as [-> _]|].
    unfold tokenize_convo in Hc.
    apply mbind_Ok in Hc as (utts & tr1 & Hloop & Hc).
    apply ret_Ok in Hc as [<- _]. simpl.
    eapply (for_each_Ok _ (fun utt => [Call (call_craft_tokenize (voc craft_model)
                                                                 (utt_text utt)) Returned])
              (fun _ utt' => exists toks, utt_meta utt' !! "tokens" = Some (VToks toks)))
      in Hloop as [_ Hutts].
    + clear -Hutts. induction Hutts; constructor; done.
    + intros u tr2 tr2' u' Hu. split; [by apply tokenize_utt_Ok in Hu as [-> _]|].
      by apply tokenize_utt_tokens in Hu.
Qed.

Lemma plt_all_Ok w fs tr tr' u :
  plt_all w fs tr = (tr', Ok u) ->
  tr' = tr ++ map (fun f => Call (call_plt f) Returned) fs.
Proof.
  revert tr. induction fs as [|f fs IH]; intros tr Hrun; simpl in Hrun.
  - apply ret_Ok in Hrun as [_ ->]. simpl. by rewrite app_nil_r.
  - apply mbind_Ok in Hrun as (? & tr1 & Hext & Hrun).
    apply ext_Ok in Hext as [_ ->]. apply IH in Hrun as ->.
    by rewrite <- app_assoc.
Qed.

Lemma import_all_Ok w sts tr tr' u :
  import_all w sts tr = (tr', Ok u) ->
  tr' = tr ++ map (fun st => Call (call_import st) Returned) sts.
Proof.
  revert tr. induction sts as [|st sts IH]; intros tr Hrun; simpl in Hrun.
  - apply ret_Ok in Hrun as [_ ->]. simpl. by rewrite app_nil_r.
  - apply mbind_Ok in Hrun as (? & tr1 & Hext & Hrun).
    apply ext_Ok in Hext as [_ ->]. apply IH in Hrun as ->.
    by rewrite <- app_assoc.
Qed.

Lemma Forall2_graph {A} (g : A -> A) (P : A -> Prop) (l l' : list A) :
  Forall2 (fun a a' => a' = g a /\ P a) l l' -> l' = map g l /\ Forall P l.
Proof.
  induction 1 as [|a a' l l' [-> HP] _ [-> IH]]; [done|].
  split; [done | by constructor].
Qed.

(** When cell 5 returns, the tokenizer has answered on every utterance
    and the corpus holds its answers. *)
Lemma tokenize_utt_inv w craft_model utt tr tr' utt' :
  tokenize_utt w craft_model utt tr = (tr', Ok utt') ->
  tr' = tr ++ [tokenize_call craft_model Returned utt] /\
  (utt' = tokenized_utt w craft_model utt /\ tokenizable w craft_model utt).
Proof.
  unfold tokenize_utt, tokenized_utt, tokenizable, tokenize_call, mbind, ext, ret.
  destruct (craft_tokenize w (voc craft_model) (utt_text utt)) as [toks|e]; simpl.
  - by intros [= <- <-].
  - discriminate.
Qed.

Lemma tokenize_convo_inv w craft_model c tr tr' c' :
  tokenize_convo w craft_model c tr = (tr', Ok c') ->
  tr' = tr ++ map (tokenize_call craft_model Returned) (convo_utterances c) /\
  (c' = tokenized_convo w craft_model c /\
   Forall (tokenizable w craft_model) (convo_utterances c)).
Proof.
  unfold tokenize_convo. intros Hrun.
  apply mbind_Ok in Hrun as (utts & tr1 & Hloop & Hrun).
  apply ret_Ok in Hrun as [<- ->].
  eapply (for_each_Ok _ (fun utt => [tokenize_call craft_model Returned utt]))
    in Hloop as [-> Hall]; [|apply tokenize_utt_inv].
  apply Forall2_graph in Hall as [-> Hall].
  split; [f_equal; apply concat_map_unit | done].
Qed.

Lemma tokenize_inv w craft_model (corpus : Corpus) tr tr' (corpus' : Corpus) :
  tokenize w craft_model corpus tr = (tr', Ok corpus') ->
  tr' = tr ++ map (tokenize_call craft_model Returned) (iter_utterances corpus) /\
  corpus' = map (tokenized_convo w craft_model) corpus /\
  Forall (tokenizable w craft_model) (iter_utterances corpus).
Proof.
  unfold tokenize. intros Hrun.
  eapply (for_each_Ok _ (fun c => map (tokenize_call craft_model Returned)
                                      (convo_utterances c)))
    in Hrun as [-> Hall]; [|apply tokenize_convo_inv].
  apply Forall2_graph in Hall as [-> Hall].
  split; [f_equal; unfold iter_utterances; apply concat_map_map|].
  split; [done|]. unfold iter_utterances. by apply Forall_concat, Forall_fmap.
Qed.

(** A run that ends without exception has made every call with success,
    cell by cell, and each cell has computed its result from that of the
    cells before. *)
Lemma run_Ok_inv w final :
  snd (run w) = Ok final ->
  exists filename loaded craft_model tokenized,
    download w "conversations-gone-awry-corpus" = Ok filename /\
    Corpus_init w filename = Ok loaded /\
    CRAFTModel_init w DEVICE = Ok craft_model /\
    corpus_written ["tokens"] loaded tokenized /\
    Forecaster_transform w (forecaster_args craft_model) tokenized
                         transform_selector ignore_utterances
      = Ok (final_corpus final) /\
    consolidate (final_corpus final) = Ok (final_preds final, final_labels final) /\
    metrics_cell (final_preds final) (final_labels final) = Ok (final_metrics final) /\
    comments_until_derail (final_corpus final)
      = Ok (final_comments_until_derail final) /\
    fst (run w) = run_trace filename
                    (map (tokenize_call craft_model Returned) (iter_utterances loaded))
                    (final_preds final) (final_labels final) /\
    tokenized = map (tokenized_convo w craft_model) loaded /\
    Forall (tokenizable w craft_model) (iter_utterances loaded) /\
    is_ok (np_max (map_to_list (final_comments_until_derail final)).*2) = true.
Proof.
  unfold run. destruct (notebook w []) as [tr r] eqn:Hrun. simpl. intros ->.
  unfold notebook, cell in Hrun.
  apply mbind_Ok in Hrun as (? & tr1 & H1 & Hrun). apply import_all_Ok in H1 as ->.
  apply mbind_Ok in Hrun as (loaded & tr2 & H2 & Hrun).
  unfold load_corpus in H2.
  apply mbind_Ok in H2 as (filename & tr2a & Hdl & H2).
  apply ext_Ok in Hdl as [Hdl ->]. apply ext_Ok in H2 as [Hload ->].
  apply mbind_Ok in Hrun as (? & tr3 & H3 & Hrun). apply ret_Ok in H3 as [_ ->].
  apply mbind_Ok in Hrun as (craft_model & tr4 & H4 & Hrun).
  apply ext_Ok in H4 as [Hmodel ->].
  apply mbind_Ok in Hrun as (tokenized & tr5 & H5 & Hrun).
  pose proof (tokenize_Ok _ _ _ _ _ _ H5) as [_ Htok].
  apply tokenize_inv in H5 as (-> & Hmap & Hable).
  apply mbind_Ok in Hrun as (forecaster & tr6 & H6 & Hrun).
  unfold build_forecaster in H6.
  apply mbind_Ok in H6 as (? & tr6a & Hinit & H6).
  apply ext_Ok in Hinit as [_ ->]. apply ret_Ok in H6 as [<- ->].
  apply mbind_Ok in Hrun as (transformed & tr7 & H7 & Hrun).
  apply ext_Ok in H7 as [Htrans ->].
  apply mbind_Ok in Hrun as (df & tr8 & H8 & Hrun).
  apply ext_Ok in H8 as [_ ->].
  apply mbind_Ok in Hrun as (pl & tr9 & H9 & Hrun).
  apply lift_Ok in H9 as [Hcons ->].
  apply mbind_Ok in Hrun as (metrics & tr10 & H10 & Hrun).
  unfold compute_metrics in H10.
  apply mbind_Ok in H10 as (? & tr10a & Hprf & H10).
  apply ext_Ok in Hprf as [_ ->]. apply lift_Ok in H10 as [Hmet ->].
  apply mbind_Ok in Hrun as (cud & tr11 & H11 & Hrun).
  apply lift_Ok in H11 as [Hcud ->].
  apply mbind_Ok in Hrun as (? & tr12 & H12 & Hrun).
  unfold plot_histogram in H12.
  apply mbind_Ok in H12 as (? & tr12a & Hmax & H12).
  apply lift_Ok in Hmax as [Hmax ->]. apply plt_all_Ok in H12 as ->.
  apply ret_Ok in Hrun as [<- ->].
  exists filename, loaded, craft_model, tokenized. simpl.
  destruct pl as [preds labels]. simpl in *.
  do 8 (split; [done|]).
  split; [unfold run_trace; simpl; rewrite <- !app_assoc; reflexivity|].
  split; [done|]. split; [done|]. by rewrite Hmax.
Qed.

Lemma steps_of_app (tr1 tr2 : list event) :
  steps_of (tr1 ++ tr2) = steps_of tr1 ++ steps_of tr2.
Proof. apply omap_app. Qed.

Lemma calls_of_app (tr1 tr2 : list event) :
  calls_of (tr1 ++ tr2) = calls_of tr1 ++ calls_of tr2.
Proof. apply omap_app. Qed.

Lemma steps_of_calls {A} (c : A -> ext_call) (o : outcome) (l : list A) :
  steps_of (map (fun x => Call (c x) o) l) = [].
Proof. induction l as [|x l IH]; [done | exact IH]. Qed.

Lemma calls_of_calls {A} (c : A -> ext_call) (o : outcome) (l : list A) :
  calls_of (map (fun x => Call (c x) o) l) = map c l.
Proof. induction l as [|x l IH]; simpl; [done | by rewrite <- IH]. Qed.

Lemma steps_of_run_trace filename craft_model (l : list Utterance) preds labels :
  steps_of (run_trace filename (map (tokenize_call craft_model Returned) l) preds labels)
  = all_steps.
Proof.
  unfold run_trace, tokenize_call. rewrite !steps_of_app, !steps_of_calls. reflexivity.
Qed.

Lemma calls_of_run_trace filename craft_model (l : list Utterance) preds labels :
  calls_of (run_trace filename (map (tokenize_call craft_model Returned) l) preds labels)
  = map call_import cell1_statements
    ++ [call_download "conversations-gone-awry-corpus"; call_Corpus filename;
        call_CRAFTModel "cpu"]
    ++ map (fun utt => call_craft_tokenize (voc craft_model) (utt_text utt)) l
    ++ [call_Forecaster "prediction" "pred_score"; call_transform; call_summarize;
        call_precision_recall_fscore_support preds labels]
    ++ map call_plt plot_calls.
Proof.
  unfold run_trace, tokenize_call. rewrite !calls_of_app, !calls_of_calls. reflexivity.
Qed.

(** C3 (as amended). In a run that ends without exception the twelve
    cells run in the order of the file, each once, and each does its
    work: cell 1 imports the libraries; cell 2 downloads the dataset and
    builds the corpus from the file; cell 3 sets the device; cell 4
    builds the model; cell 5 calls the tokenizer once for every
    utterance of the loaded corpus (in the order of the utterance table)
    and stores the answers; cell 6 builds the forecaster; cell 7 hands
    the tokenized corpus to the transform; cell 8 asks for the summary;
    cell 9 consolidates the forecasts of the transformed corpus into the
    arrays of predictions and labels; cell 10 computes the metrics from
    these arrays; cell 11 computes the table of comments until
    derailment; cell 12 takes its maximum and plots.  The trace of the
    run is the sequence of these cells with their calls.  The seven
    steps of the spec's flow are among the twelve, each once and in the
    spec's order; the other five are the imports, the device constant,
    the construction of the forecaster, the summary and the
    comments-until-derailment loop. *)
Theorem notebook_steps (w : World) (final : Final) :
  snd (run w) = Ok final ->
  exists filename loaded craft_model tokenizer_calls,
    download w "conversations-gone-awry-corpus" = Ok filename /\
    Corpus_init w filename = Ok loaded /\
    CRAFTModel_init w "cpu" = Ok craft_model /\
    tokenizer_calls ≡ₚ map (tokenize_call craft_model Returned) (iter_utterances loaded) /\
    Forall (tokenizable w craft_model) (iter_utterances loaded) /\
    Forecaster_transform w (forecaster_args craft_model)
                         (map (tokenized_convo w craft_model) loaded)
                         transform_selector ignore_utterances
      = Ok (final_corpus final) /\
    consolidate (final_corpus final) = Ok (final_preds final, final_labels final) /\
    metrics_cell (final_preds final) (final_labels final) = Ok (final_metrics final) /\
    comments_until_derail (final_corpus final)
      = Ok (final_comments_until_derail final) /\
    is_ok (np_max (map_to_list (final_comments_until_derail final)).*2) = true /\
    fst (run w) = run_trace filename tokenizer_calls
                            (final_preds final) (final_labels final) /\
    steps_of (fst (run w)) = all_steps /\
    NoDup all_steps /\
    filter (fun s => s ∈ spec_flow) all_steps = spec_flow /\
    filter (fun s => s ∉ spec_flow) all_steps
    = [Imports; SetDevice; BuildForecaster; Summarize; CommentsUntilDerail].
Proof.
  intros Hrun.
  destruct (run_Ok_inv w final Hrun)
    as (filename & loaded & craft_model & tokenized & Hdl & Hload & Hmodel & _
        & Htrans & Hcons & Hmet & Hcud & Htr & -> & Hable & Hmax).
  exists filename, loaded, craft_model,
    (map (tokenize_call craft_model Returned) (iter_utterances loaded)).
  do 3 (split; [done|]). split; [reflexivity|].
  do 7 (split; [done|]).
  split; [rewrite Htr; apply steps_of_run_trace|].
  split; [|split; reflexivity].
  apply (bool_decide_unpack _). vm_compute. exact I.
Qed.

Lemma example_run_ok : is_ok (snd (run example_world)) = true.
Proof. vm_compute. reflexivity. Qed.

Lemma notebook_steps_witness :
  exists final filename loaded craft_model tokenizer_calls,
    snd (run example_world) = Ok final /\
    download example_world "conversations-gone-awry-corpus" = Ok filename /\
    Corpus_init example_world filename = Ok loaded /\
    CRAFTModel_init example_world "cpu" = Ok craft_model /\
    tokenizer_calls ≡ₚ map (tokenize_call craft_model Returned) (iter_utterances loaded) /\
    Forall (tokenizable example_world craft_model) (iter_utterances loaded) /\
    Forecaster_transform example_world (forecaster_args craft_model)
                         (map (tokenized_convo example_world craft_model) loaded)
                         transform_selector ignore_utterances
      = Ok (final_corpus final) /\
    consolidate (final_corpus final) = Ok (final_preds final, final_labels final) /\
    metrics_cell (final_preds final) (final_labels final) = Ok (final_metrics final) /\
    comments_until_derail (final_corpus final)
      = Ok (final_comments_until_derail final) /\
    is_ok (np_max (map_to_list (final_comments_until_derail final)).*2) = true /\
    fst (run example_world) = run_trace filename tokenizer_calls
                                        (final_preds final) (final_labels final) /\
    steps_of (fst (run example_world)) = all_steps /\
    NoDup all_steps /\
    filter (fun s => s ∈ spec_flow) all_steps = spec_flow /\
    filter (fun s => s ∉ spec_flow) all_steps
    = [Imports; SetDevice; BuildForecaster; Summarize; CommentsUntilDerail].
Proof.
  destruct (snd (run example_world)) as [final|e] eqn:Hrun.
  - destruct (notebook_steps example_world final Hrun)
      as (filename & loaded & craft_model & tokenizer_calls & H).
    exists final, filename, loaded, craft_model, tokenizer_calls.
    split; [reflexivity | exact H].
  - exfalso. pose proof example_run_ok as Hok. rewrite Hrun in Hok. discriminate Hok.
Defined.

(** The claim C3 as stated fails.  The run on the example world ends
    without exception; between the steps of the spec's flow it builds
    the forecaster (cell 6) and asks it for the summary (cell 8), two
    calls across the boundary, and it computes in cell 11 the table of
    comments until derailment, here with the entry of conversation
    [t1]; none of these is a step of the spec's flow, and the cells of
    the run are not the seven of the flow. *)
Lemma notebook_steps_not_spec_flow :
  exists final,
    snd (run example_world) = Ok final /\
    fst (run example_world)
    = run_trace "downloads/conversations-gone-awry-corpus"
        (map (tokenize_call example_model Returned) (iter_utterances example_corpus))
        [1; 1] [1; 0] /\
    Call (call_Forecaster "prediction" "pred_score") Returned ∈ fst (run example_world) /\
    Call call_summarize Returned ∈ fst (run example_world) /\
    comments_until_derail (final_corpus final) = Ok {["t1" := 1]} /\
    final_comments_until_derail final = {["t1" := 1]} /\
    steps_of (fst (run example_world)) <> spec_flow.
Proof.
  destruct (snd (run example_world)) as [final|e] eqn:Hrun;
    [|vm_compute in Hrun; discriminate Hrun].
  exists final. split; [reflexivity|].
  assert (Htr : fst (run example_world)
    = run_trace "downloads/conversations-gone-awry-corpus"
        (map (tokenize_call example_model Returned) (iter_utterances example_corpus))
        [1; 1] [1; 0]) by (vm_compute; reflexivity).
  split; [exact Htr|].
  split; [apply list_elem_of_lookup; exists 23%nat; vm_compute; reflexivity|].
  split; [apply list_elem_of_lookup; exists 27%nat; vm_compute; reflexivity|].
  destruct (run_Ok_inv example_world final Hrun)
    as (_ & _ & _ & _ & _ & _ & _ & _ & _ & _ & _ & Hcud & _).
  assert (Htab : final_comments_until_derail final = {["t1" := 1]}).
  { vm_compute in Hrun. injection Hrun as <-. vm_compute. reflexivity. }
  split; [by rewrite Hcud, Htab | ]. split; [exact Htab|].
  intros H. vm_compute in H. discriminate H.
Qed.

(** ** The calls across the boundary *)

Lemma filter_tokenize_calls (P : ext_call -> Prop) `{!forall c, Decision (P c)}
    (v : Voc) (l : list Utterance) :
  (forall text, P (call_craft_tokenize v text)) ->
  filter P (map (fun utt => call_craft_tokenize v (utt_text utt)) l)
  = map (fun utt => call_craft_tokenize v (utt_text utt)) l.
Proof.
  intros HP. induction l as [|u l IH]; simpl; [done|].
  rewrite filter_cons, decide_True by apply HP. by rewrite IH.
Qed.

(** C4 (as amended). In a run that ends without exception the calls
    of the four shapes of the spec are, up to their order, the download
    of the dataset by name, the construction of the model with the
    device type, the transform, and one tokenizer call (vocabulary, raw
    text) for every utterance of the loaded corpus.  They are not the
    only calls across the boundary: the run also constructs the corpus
    from the downloaded file and the forecaster, asks for the summary,
    calls the metric function of the statistics library and the plotting
    functions, and none of these has one of the four shapes. *)
Theorem notebook_calls (w : World) (final : Final) :
  snd (run w) = Ok final ->
  exists filename loaded craft_model,
    download w "conversations-gone-awry-corpus" = Ok filename /\
    Corpus_init w filename = Ok loaded /\
    CRAFTModel_init w "cpu" = Ok craft_model /\
    filter (fun c => spec_shape c = true) (calls_of (fst (run w)))
    ≡ₚ [call_download "conversations-gone-awry-corpus"; call_CRAFTModel "cpu";
        call_transform]
       ++ map (fun utt => call_craft_tokenize (voc craft_model) (utt_text utt))
              (iter_utterances loaded) /\
    Forall (fun c => c ∈ calls_of (fst (run w)) /\ spec_shape c = false)
           ([call_Corpus filename; call_Forecaster "prediction" "pred_score";
             call_summarize;
             call_precision_recall_fscore_support (final_preds final) (final_labels final)]
            ++ map call_plt plot_calls).
Proof.
  intros Hrun.
  destruct (run_Ok_inv w final Hrun)
    as (filename & loaded & craft_model & tokenized & Hdl & Hload & Hmodel
        & _ & _ & _ & _ & _ & -> & _).
  exists filename, loaded, craft_model.
  do 3 (split; [done|]). rewrite calls_of_run_trace. split.
  - rewrite !filter_app, filter_tokenize_calls by done.
    change (([call_download "conversations-gone-awry-corpus"; call_CRAFTModel "cpu"]
             ++ map (fun utt => call_craft_tokenize (voc craft_model) (utt_text utt))
                    (iter_utterances loaded)
             ++ [call_transform])
            ≡ₚ [call_download "conversations-gone-awry-corpus"; call_CRAFTModel "cpu";
                call_transform]
               ++ map (fun utt => call_craft_tokenize (voc craft_model) (utt_text utt))
                      (iter_utterances loaded)).
    simpl. do 2 apply Permutation_skip. symmetry. apply Permutation_cons_append.
  - apply Forall_forall. intros c Hc. split.
    + rewrite !elem_of_app. apply elem_of_app in Hc as [Hc|Hc].
      * rewrite !elem_of_cons in Hc.
        destruct Hc as [->|[->|[->|[->|Hc]]]];
          [right; left | right; right; right; left | right; right; right; left
           | right; right; right; left | by apply elem_of_nil in Hc];
          rewrite !elem_of_cons; tauto.
      * by do 4 right.
    + apply elem_of_app in Hc as [Hc|Hc].
      * rewrite !elem_of_cons in Hc.
        destruct Hc as [->|[->|[->|[->|Hc]]]]; [done..|by apply elem_of_nil in Hc].
      * apply list_elem_of_fmap in Hc as (f & -> & _). done.
Qed.

Lemma notebook_calls_witness :
  exists final filename loaded craft_model,
    snd (run example_world) = Ok final /\
    download example_world "conversations-gone-awry-corpus" = Ok filename /\
    Corpus_init example_world filename = Ok loaded /\
    CRAFTModel_init example_world "cpu" = Ok craft_model /\
    filter (fun c => spec_shape c = true) (calls_of (fst (run example_world)))
    ≡ₚ [call_download "conversations-gone-awry-corpus"; call_CRAFTModel "cpu";
        call_transform]
       ++ map (fun utt => call_craft_tokenize (voc craft_model) (utt_text utt))
              (iter_utterances loaded) /\
    Forall (fun c => c ∈ calls_of (fst (run example_world)) /\ spec_shape c = false)
           ([call_Corpus filename; call_Forecaster "prediction" "pred_score";
             call_summarize;
             call_precision_recall_fscore_support (final_preds final) (final_labels final)]
            ++ map call_plt plot_calls).
Proof.
  destruct (snd (run example_world)) as [final|e] eqn:Hrun.
  - destruct (notebook_calls example_world final Hrun)
      as (filename & loaded & craft_model & H).
    exists final, filename, loaded, craft_model. split; [reflexivity | exact H].
  - exfalso. pose proof example_run_ok as Hok. rewrite Hrun in Hok. discriminate Hok.
Defined.

(** The claim C4 as stated fails: the run on the example world makes
    the call [forecaster.summarize(corpus)], which is none of the four
    shapes. *)
Lemma notebook_calls_not_only_spec_shapes :
  is_ok (snd (run example_world)) = true /\
  call_summarize ∈ calls_of (fst (run example_world)) /\
  spec_shape call_summarize = false /\
  forallb spec_shape (calls_of (fst (run example_world))) = false.
Proof.
  split; [exact example_run_ok|].
  split; [|split; vm_compute; reflexivity].
  apply list_elem_of_lookup. exists 19%nat. vm_compute. reflexivity.
Qed.

(** ** Failures *)

Lemma clean_app (tr1 tr2 : list event) : clean (tr1 ++ tr2) <-> clean tr1 /\ clean tr2.
Proof. apply Forall_app. Qed.

Lemma clean_raised (pre post : list event) c e :
  ~ clean (pre ++ Call c (Raised e) :: post).
Proof.
  intros H. apply clean_app in H as [_ H]. by apply Forall_cons in H as [H _].
Qed.

Lemma kfs_ret {A} (a : A) : keeps_fail_stop (ret a).
Proof. intros tr Htr. by left. Qed.

Lemma kfs_lift {A} (r : result A) : keeps_fail_stop (lift r).
Proof. intros tr Htr. by left. Qed.

Lemma kfs_ext {A} (c : ext_call) (r : result A) : keeps_fail_stop (ext c r).
Proof.
  intros tr Htr. unfold ext. simpl. destruct r as [a|e]; simpl.
  - left. apply clean_app. split; [done|]. by repeat constructor.
  - right. by exists tr, c, e.
Qed.

Lemma kfs_bind {A B} (m : M A) (f : A -> M B) :
  keeps_fail_stop m -> (forall a, keeps_fail_stop (f a)) ->
  keeps_fail_stop (mbind m f).
Proof.
  intros Hm Hf tr Htr. specialize (Hm tr Htr). unfold mbind.
  destruct (m tr) as [tr1 [a|e]]; simpl in *.
  - destruct Hm as [Hclean | (pre & c & e & _ & _ & Hr)]; [|discriminate].
    by apply Hf.
  - destruct Hm as [Hclean | (pre & c & e0 & Heq & Hpre & [= <-])]; [by left|].
    right. by exists pre, c, e.
Qed.

Lemma kfs_cell {A} (s : step) (m : M A) : keeps_fail_stop m -> keeps_fail_stop (cell s m).
Proof.
  intros Hm tr Htr. unfold cell. apply Hm.
  apply clean_app. split; [done|]. by repeat constructor.
Qed.

Lemma kfs_for_each {A} (f : A -> M A) (l : list A) :
  (forall a, keeps_fail_stop (f a)) -> keeps_fail_stop (for_each f l).
Proof.
  intros Hf. induction l as [|a l IH]; simpl; [apply kfs_ret|].
  apply kfs_bind; [apply Hf|]. intros a'.
  apply kfs_bind; [apply IH|]. intros l'. apply kfs_ret.
Qed.

Lemma kfs_plt_all w (fs : list string) : keeps_fail_stop (plt_all w fs).
Proof.
  induction fs as [|f fs IH]; simpl; [apply kfs_ret|].
  apply kfs_bind; [apply kfs_ext | intros _; apply IH].
Qed.

Lemma kfs_import_all w (sts : list string) : keeps_fail_stop (import_all w sts).
Proof.
  induction sts as [|st sts IH]; simpl; [apply kfs_ret|].
  apply kfs_bind; [apply kfs_ext | intros _; apply IH].
Qed.

Create HintDb kfs.
#[local] Hint Resolve kfs_ret kfs_lift kfs_ext kfs_cell kfs_plt_all kfs_import_all : kfs.

Lemma kfs_notebook w : keeps_fail_stop (notebook w).
Proof.
  unfold notebook, load_corpus, load_model, tokenize, tokenize_convo, tokenize_utt,
    build_forecaster, run_transform, summarize, compute_metrics, plot_histogram.
  repeat first
    [ apply kfs_bind; [|intros ?]
    | apply kfs_cell
    | apply kfs_for_each; intros ?
    | solve [auto with kfs] ].
Qed.

Lemma keeps_fail_stop_fail_stop {A} (m : M A) :
  keeps_fail_stop m -> fail_stop (m []).
Proof.
  intros Hm pre c e post Htr.
  destruct (Hm [] (Forall_nil_2 _)) as [Hclean | (pre0 & c0 & e0 & Heq & Hpre0 & Hr)].
  - rewrite Htr in Hclean. by apply clean_raised in Hclean.
  - rewrite Htr in Heq.
    destruct post as [|ev post _] using rev_ind.
    + apply app_inj_tail in Heq as [-> [= -> ->]]. done.
    + exfalso. change (pre ++ Call c (Raised e) :: post ++ [ev])
        with (pre ++ (Call c (Raised e) :: post) ++ [ev]) in Heq.
      rewrite app_assoc in Heq. apply app_inj_tail in Heq as [<- _].
      by apply clean_raised in Hpre0.
Qed.

Lemma rbc_ret {A} (a : A) : raises_by_call (ret a).
Proof. intros tr e H. discriminate H. Qed.

Lemma rbc_ext {A} (c : ext_call) (r : result A) : raises_by_call (ext c r).
Proof.
  intros tr e H. unfold ext in *. simpl in *. subst r. by exists tr, c.
Qed.

Lemma rbc_bind {A B} (m : M A) (f : A -> M B) :
  raises_by_call m -> (forall a, raises_by_call (f a)) -> raises_by_call (mbind m f).
Proof.
  intros Hm Hf tr e. specialize (Hm tr). unfold mbind.
  destruct (m tr) as [tr1 [a|e1]]; simpl in *.
  - apply Hf.
  - intros [= <-]. by apply Hm.
Qed.

Lemma rbc_cell {A} (s : step) (m : M A) : raises_by_call m -> raises_by_call (cell s m).
Proof. intros Hm tr e. unfold cell. apply Hm. Qed.

Lemma rbc_for_each {A} (f : A -> M A) (l : list A) :
  (forall a, raises_by_call (f a)) -> raises_by_call (for_each f l).
Proof.
  intros Hf. induction l as [|a l IH]; simpl; [apply rbc_ret|].
  apply rbc_bind; [apply Hf|]. intros a'.
  apply rbc_bind; [apply IH|]. intros l'. apply rbc_ret.
Qed.

Lemma rbc_plt_all w (fs : list string) : raises_by_call (plt_all w fs).
Proof.
  induction fs as [|f fs IH]; simpl; [apply rbc_ret|].
  apply rbc_bind; [apply rbc_ext | intros _; apply IH].
Qed.

Lemma rbc_import_all w (sts : list string) : raises_by_call (import_all w sts).
Proof.
  induction sts as [|st sts IH]; simpl; [apply rbc_ret|].
  apply rbc_bind; [apply rbc_ext | intros _; apply IH].
Qed.

Lemma rbc_compute_metrics (preds labels : list Z) :
  raises_by_call (compute_metrics preds labels).
Proof.
  intros tr e. unfold compute_metrics, mbind, ext, lift, metrics_cell.
  destruct (precision_recall_fscore_support preds labels) as [[[p r] f]|e1] eqn:Hprf; simpl.
  - discriminate.
  - intros [= <-]. by eexists _, _.
Qed.

Lemma mbind_Raise {A B} (m : M A) (f : A -> M B) tr e :
  snd (mbind m f tr) = Raise e ->
  (snd (m tr) = Raise e /\ fst (mbind m f tr) = fst (m tr)) \/
  (exists a, snd (m tr) = Ok a /\ mbind m f tr = f a (fst (m tr))).
Proof.
  unfold mbind. destruct (m tr) as [tr1 [a|e1]]; simpl.
  - intros _. right. by exists a.
  - intros [= <-]. by left.
Qed.

Ltac next_cell Hrun H Htr a :=
  let Heq := fresh "Heq" in
  let Hok := fresh "Hok" a in
  pose proof (mbind_Raise _ _ _ _ Hrun) as [[H Htr] | (a & Hok & Heq)];
  [ rewrite Htr | rewrite Heq in Hrun |- *; clear Heq; cbv beta in Hrun |- * ].

(** A run ends with an exception in four ways only: a call across the
    boundary raised it, and is the last event; or the code of cell 9
    raised it on the corpus returned by the transform; or the code of
    cell 11 did, on the same corpus; or cell 12 raised [ValueError] on
    an empty table. *)
Lemma run_Raise_inv (w : World) (e : exn) :
  snd (run w) = Raise e ->
  (exists pre c, fst (run w) = pre ++ [Call c (Raised e)]) \/
  (exists pre fc tokenized (corpus : Corpus),
     fst (run w) = pre ++ [CellStart Aggregate] /\
     Forecaster_transform w fc tokenized transform_selector ignore_utterances
       = Ok corpus /\
     consolidate corpus = Raise e) \/
  (exists pre fc tokenized (corpus : Corpus),
     fst (run w) = pre ++ [CellStart CommentsUntilDerail] /\
     Forecaster_transform w fc tokenized transform_selector ignore_utterances
       = Ok corpus /\
     is_ok (consolidate corpus) = true /\
     comments_until_derail corpus = Raise e) \/
  (exists pre, fst (run w) = pre ++ [CellStart PlotHistogram] /\ e = ValueError).
Proof.
  unfold run, notebook. intros Hrun.
  (* cells 1 to 8 *)
  next_cell Hrun H Htr u1.
  { left. exact (rbc_cell _ _ (rbc_import_all _ _) _ _ H). }
  next_cell Hrun H Htr corpus0.
  { left. refine (rbc_cell _ _ _ _ _ H). unfold load_corpus.
    apply rbc_bind; [apply rbc_ext | intros ?; apply rbc_ext]. }
  next_cell Hrun H Htr u3.
  { left. exact (rbc_cell _ _ (rbc_ret _) _ _ H). }
  next_cell Hrun H Htr craft_model.
  { left. exact (rbc_cell _ _ (rbc_ext _ _) _ _ H). }
  next_cell Hrun H Htr corpus1.
  { left. refine (rbc_cell _ _ _ _ _ H). unfold tokenize, tokenize_convo, tokenize_utt.
    apply rbc_for_each. intros c. apply rbc_bind; [|intros ?; apply rbc_ret].
    apply rbc_for_each. intros u. apply rbc_bind; [apply rbc_ext | intros ?; apply rbc_ret]. }
  next_cell Hrun H Htr forecaster.
  { left. refine (rbc_cell _ _ _ _ _ H). unfold build_forecaster.
    apply rbc_bind; [apply rbc_ext | intros ?; apply rbc_ret]. }
  next_cell Hrun H Htr corpus.
  { left. exact (rbc_cell _ _ (rbc_ext _ _) _ _ H). }
  next_cell Hrun H Htr df.
  { left. exact (rbc_cell _ _ (rbc_ext _ _) _ _ H). }
  (* cell 9 *)
  next_cell Hrun H Htr pl.
  { right. left. unfold cell, lift, run_transform, ext in *. simpl in *.
    by eexists _, forecaster, corpus1, corpus. }
  (* cell 10 *)
  next_cell Hrun H Htr metrics.
  { left. exact (rbc_cell _ _ (rbc_compute_metrics _ _) _ _ H). }
  (* cell 11 *)
  next_cell Hrun H Htr cud.
  { right. right. left. unfold cell, lift, run_transform, ext in *. simpl in *.
    eexists _, forecaster, corpus1, corpus.
    split; [reflexivity|]. split; [done|]. split; [by rewrite Hokpl | done]. }
  (* cell 12 *)
  next_cell Hrun H Htr u12; [|discriminate Hrun].
  unfold cell, plot_histogram in *.
  pose proof (mbind_Raise _ _ _ _ H) as [[H' Htr'] | (z & _ & Heq)].
  - right. right. right. rewrite Htr'. unfold lift in *. simpl in *.
    eexists. split; [reflexivity|].
    destruct ((map_to_list cud).*2); simpl in H'; [by injection H' as <- | discriminate H'].
  - left. rewrite Heq in H |- *. exact (rbc_plt_all _ _ _ _ H).
Qed.



(** With a handler around the call the property would be lost: the
    run goes on after the raised call. *)
Lemma catch_is_not_fail_stop :
  ~ fail_stop (catch (load_model broken_world)
                     (fun _ => ext (call_CRAFTModel "cuda") (CRAFTModel_init example_world "cuda"))
                     []).
Proof.
  intros H.
  destruct (H [] (call_CRAFTModel "cpu") (LibraryError "no saved parameters")
              [Call (call_CRAFTModel "cuda") Returned] eq_refl) as [Hpost _].
  discriminate Hpost.
Qed.

(** ** The metadata fields read and written *)

Lemma notebook_fields_elem (k : string) :
  k ∈ notebook_fields <->
  k = "tokens" \/ k = "comment_has_personal_attack" \/ k = "is_section_header" \/
  k = "split" \/ k = "conversation_has_personal_attack" \/ k = "pred_score".
Proof.
  unfold notebook_fields. rewrite !elem_of_cons, elem_of_nil. tauto.
Qed.

Ltac field_in := apply notebook_fields_elem; tauto.

Lemma getitem_field (m1 m2 : gmap string pyval) (key : string) :
  (forall k, k ∈ notebook_fields -> m1 !! k = m2 !! k) ->
  key ∈ notebook_fields -> getitem m1 key = getitem m2 key.
Proof. intros Hag Hin. by apply (getitem_agree notebook_fields). Qed.

Lemma utt_reads (u1 u2 : Utterance) :
  utt_agree notebook_fields u1 u2 ->
  text_func u1 = text_func u2 /\ label_func u1 = label_func u2 /\
  ignore_utterances u1 = ignore_utterances u2.
Proof.
  intros (_ & _ & Hag). unfold text_func, label_func, ignore_utterances.
  rewrite (getitem_field _ _ "tokens" Hag) by field_in.
  rewrite (getitem_field _ _ "comment_has_personal_attack" Hag) by field_in.
  rewrite (getitem_field _ _ "is_section_header" Hag) by field_in.
  done.
Qed.

Lemma convo_reads (c1 c2 : Conversation) :
  convo_agree notebook_fields c1 c2 ->
  transform_selector c1 = transform_selector c2 /\
  is_test c1 = is_test c2 /\ is_derailing_test c1 = is_derailing_test c2.
Proof.
  intros (_ & Hag & _). unfold transform_selector, is_test, is_derailing_test.
  rewrite (getitem_field _ _ "split" Hag) by field_in.
  rewrite (getitem_field _ _ "conversation_has_personal_attack" Hag) by field_in.
  done.
Qed.

Lemma consolidate_utts_reads (l1 l2 : list Utterance) (p : Z) :
  Forall2 (utt_agree notebook_fields) l1 l2 ->
  consolidate_utts l1 p = consolidate_utts l2 p.
Proof.
  intros Hag. revert p. induction Hag as [|u1 u2 l1 l2 (_ & _ & Hu) _ IH]; intros p.
  - done.
  - simpl. rewrite (getitem_field _ _ "pred_score" Hu) by field_in.
    destruct (getitem (utt_meta u2) "pred_score") as [v|e]; simpl; [|done].
    destruct (if py_is_not_None v then _ else _) as [hit|e]; simpl; [|done].
    apply IH.
Qed.

Lemma consolidate_body_reads (c1 c2 : Conversation) (s : list Z * list Z) :
  convo_agree notebook_fields c1 c2 ->
  consolidate_body c1 s = consolidate_body c2 s.
Proof.
  intros (_ & Hag & Hutts). destruct s as [preds labels].
  rewrite !consolidate_body_eq.
  rewrite (getitem_field _ _ "conversation_has_personal_attack" Hag) by field_in.
  by rewrite (consolidate_utts_reads _ _ 0 Hutts).
Qed.

(** The comments of two conversations that agree on the fields agree,
    or the comprehension raises the same exception on both. *)
Lemma non_header_utts_reads (l1 l2 : list Utterance) :
  Forall2 (utt_agree notebook_fields) l1 l2 ->
  match non_header_utts l1, non_header_utts l2 with
  | Ok a, Ok b => Forall2 (utt_agree notebook_fields) a b
  | Raise e1, Raise e2 => e1 = e2
  | _, _ => False
  end.
Proof.
  induction 1 as [|u1 u2 l1 l2 Hu _ IH]; simpl; [constructor|].
  pose proof Hu as (_ & _ & Hag).
  rewrite (getitem_field _ _ "is_section_header" Hag) by field_in.
  destruct (getitem (utt_meta u2) "is_section_header") as [v|e]; simpl; [|done].
  destruct (non_header_utts l1) as [a|e1], (non_header_utts l2) as [b|e2];
    simpl; try done.
  destruct (py_truthy v); simpl; [done | by constructor].
Qed.

Lemma derail_scan_reads (l1 l2 : list Utterance) (d : Z) (idxs : list nat) :
  Forall2 (utt_agree notebook_fields) l1 l2 ->
  derail_scan l1 d idxs = derail_scan l2 d idxs.
Proof.
  intros Hag. induction idxs as [|idx more IH]; simpl; [done|].
  destruct (l1 !! idx) as [u1|] eqn:H1.
  - destruct (Forall2_lookup_l _ _ _ _ _ Hag H1) as (u2 & -> & (_ & _ & Hu)).
    rewrite (getitem_field _ _ "pred_score" Hu) by field_in.
    destruct (getitem (utt_meta u2) "pred_score") as [v|e]; simpl; [|done].
    destruct (py_gt v FORECAST_THRESH) as [[|]|e]; simpl; [done | apply IH | done].
  - assert (l2 !! idx = None) as ->; [|done].
    apply lookup_ge_None. apply lookup_ge_None in H1.
    by rewrite <- (Forall2_length _ _ _ Hag).
Qed.

Lemma derail_body_reads (c1 c2 : Conversation) (m : gmap string Z) :
  convo_agree notebook_fields c1 c2 -> derail_body c1 m = derail_body c2 m.
Proof.
  intros (Hid & _ & Hutts). unfold derail_body.
  pose proof (non_header_utts_reads _ _ Hutts) as Hnh.
  destruct (non_header_utts (convo_utterances c1)) as [a|e1],
           (non_header_utts (convo_utterances c2)) as [b|e2]; simpl; try done.
  - rewrite (Forall2_length _ _ _ Hnh), (derail_scan_reads a b _ _ Hnh), Hid. done.
  - by subst.
Qed.

Lemma for_conversations_reads {S} (sel : Conversation -> result bool)
    (body : Conversation -> S -> result S) (k1 k2 : Corpus) (s : S) :
  (forall c1 c2, convo_agree notebook_fields c1 c2 -> sel c1 = sel c2) ->
  (forall c1 c2 s, convo_agree notebook_fields c1 c2 -> body c1 s = body c2 s) ->
  corpus_agree notebook_fields k1 k2 ->
  for_conversations sel body k1 s = for_conversations sel body k2 s.
Proof.
  intros Hsel Hbody Hag. revert s.
  induction Hag as [|c1 c2 k1 k2 Hc _ IH]; intros s; simpl; [done|].
  rewrite (Hsel _ _ Hc). destruct (sel c2) as [b|e]; simpl; [|done].
  rewrite (Hbody _ _ s Hc). destruct (if b then body c2 s else Ok s); simpl; [|done].
  apply IH.
Qed.

Lemma corpus_reads (k1 k2 : Corpus) :
  corpus_agree notebook_fields k1 k2 ->
  consolidate k1 = consolidate k2 /\
  comments_until_derail k1 = comments_until_derail k2.
Proof.
  intros Hag. split.
  - apply for_conversations_reads; [|apply consolidate_body_reads|done].
    intros c1 c2 Hc. by apply convo_reads.
  - apply for_conversations_reads; [|intros; by apply derail_body_reads|done].
    intros c1 c2 Hc. by apply convo_reads.
Qed.

Lemma utt_written_trans (K1 K2 : list string) (u1 u2 u3 : Utterance) :
  utt_written K1 u1 u2 -> utt_written K2 u2 u3 -> utt_written (K1 ++ K2) u1 u3.
Proof.
  intros (Hid1 & Htx1 & H1) (Hid2 & Htx2 & H2).
  split; [congruence|]. split; [congruence|].
  intros k Hk. rewrite elem_of_app in Hk.
  rewrite H1, H2; [done | tauto | tauto].
Qed.

Lemma corpus_written_trans (K1 K2 : list string) (k1 k2 k3 : Corpus) :
  corpus_written K1 k1 k2 -> corpus_written K2 k2 k3 ->
  corpus_written (K1 ++ K2) k1 k3.
Proof.
  intros H12. revert k3. induction H12 as [|c1 c2 k1 k2 Hc _ IH]; intros k3 H23.
  - inversion H23. constructor.
  - inversion H23 as [|? c3 ? k3' Hc' Hrest]; subst. constructor; [|by apply IH].
    destruct Hc as (Hid1 & Hm1 & Hu1), Hc' as (Hid2 & Hm2 & Hu2).
    split; [congruence|]. split; [congruence|].
    clear -Hu1 Hu2. revert Hu2. generalize (convo_utterances c3).
    induction Hu1 as [|u1 u2 l1 l2 Hu _ IHu]; intros l3 Hu2.
    + inversion Hu2. constructor.
    + inversion Hu2; subst. constructor; [by eapply utt_written_trans | by apply IHu].
Qed.

Lemma map_result_Ok {A B} (f : A -> result B) (R : A -> B -> Prop) (l : list A)
    (l' : list B) :
  (forall a b, a ∈ l -> f a = Ok b -> R a b) ->
  map_result f l = Ok l' -> Forall2 R l l'.
Proof.
  revert l'. induction l as [|a l IH]; intros l' Hf Hrun; simpl in Hrun.
  - injection Hrun as <-. constructor.
  - apply bind_Ok in Hrun as (b & Hb & Hrun).
    apply bind_Ok in Hrun as (rest & Hrest & [= <-]).
    constructor.
    + apply Hf; [by left | done].
    + apply IH; [|done]. intros a' b' Hin. apply Hf. by right.
Qed.

Lemma annotate_written (fc : Forecaster) (forecast : option (Z * pyfloat))
    (utt : Utterance) :
  utt_written [forecast_attribute_name fc; forecast_prob_attribute_name fc]
              utt (annotate fc forecast utt).
Proof.
  assert (Hk : forall k, k ∉ [forecast_attribute_name fc; forecast_prob_attribute_name fc] ->
                         forecast_prob_attribute_name fc <> k /\
                         forecast_attribute_name fc <> k).
  { intros k Hk. split; intros <-; apply Hk; [by right; left | by left]. }
  unfold annotate. destruct forecast as [[p s]|];
    (split; [done|]; split; [done|]; intros k Hout; destruct (Hk k Hout); simpl;
     by rewrite !lookup_insert_ne).
Qed.

(** The model of the transform is an instance of [transform_annotates]. *)
Lemma transform_model_annotates backend fc (corpus : Corpus) selector ignore
    (corpus' : Corpus) :
  transform_model backend fc corpus selector ignore = Ok corpus' ->
  corpus_written [forecast_attribute_name fc; forecast_prob_attribute_name fc]
                 corpus corpus'.
Proof.
  unfold transform_model. apply map_result_Ok. intros c c' _ Hc.
  apply bind_Ok in Hc as (sel & _ & Hc). unfold annotate_convo in Hc.
  apply bind_Ok in Hc as (utts & Hutts & [= <-]).
  split; [done|]. split; [done|]. simpl.
  revert Hutts. apply map_result_Ok. intros u u' _ Hu.
  destruct sel.
  - apply bind_Ok in Hu as (ig & _ & [= <-]). apply annotate_written.
  - injection Hu as <-. apply (annotate_written fc None).
Qed.

Lemma example_world_annotates : transform_annotates example_world.
Proof. intros fc corpus sel ign corpus'. apply transform_model_annotates. Qed.




(** ** The documentation stub *)



(** * Further properties of the cells *)

(** ** Cell 9: alignment and requirements *)

Lemma consolidate_loop_labels (corpus : Corpus) (preds0 labels0 : list Z) :
  Forall labelled corpus ->
  exists preds labels,
    for_conversations is_test consolidate_body corpus (preds0, labels0)
      = Ok (preds0 ++ preds, labels0 ++ labels) /\
    length preds = length (test_convos corpus) /\
    Forall2 label_recorded (test_convos corpus) labels.
Proof.
  intros Hwf. revert preds0 labels0.
  induction Hwf as [|c rest [Hsplit Htest] _ IH]; intros preds0 labels0.
  - exists [], []. simpl. rewrite !app_nil_r. repeat split; constructor.
  - unfold test_convos. rewrite filter_cons. fold (test_convos rest).
    cbn [for_conversations]. rewrite (is_test_in_test c Hsplit).
    cbn [bind]. destruct (decide (in_test c)) as [Hin|Hout].
    + rewrite bool_decide_eq_true_2 by done.
      destruct (Htest Hin) as [[b Hb] Hscored].
      destruct (consolidate_utts_spec (convo_utterances c) 0 Hscored) as (p & Hp & _).
      rewrite consolidate_body_eq, (getitem_Some _ _ _ Hb). cbn [bind py_int].
      rewrite Hp. cbn [bind].
      destruct (IH (preds0 ++ [p]) (labels0 ++ [if b then 1 else 0]))
        as (preds & labels & Heq & Hlen & Hall).
      exists (p :: preds), ((if b then 1 else 0) :: labels).
      rewrite Heq, <- !app_assoc. simpl. split; [done|].
      split; [by rewrite Hlen|]. constructor; [by exists b | done].
    + rewrite bool_decide_eq_false_2 by done. simpl. apply IH.
Qed.

(** X1. On a labelled corpus cell 9 returns one prediction and one
    label per test conversation, in the order of the corpus: the two
    arrays have the length of the test split, the i-th label is 1 or 0
    as the i-th test conversation's [conversation_has_personal_attack]
    is true or false, and both arrays hold only 0 and 1. *)
Theorem consolidate_aligned (corpus : Corpus) :
  Forall labelled corpus ->
  exists preds labels,
    consolidate corpus = Ok (preds, labels) /\
    length preds = length (test_convos corpus) /\
    length labels = length (test_convos corpus) /\
    Forall2 label_recorded (test_convos corpus) labels /\
    binary preds /\ binary labels.
Proof.
  intros Hwf.
  destruct (consolidate_loop_labels corpus [] [] Hwf) as (preds & labels & Heq & Hlen & Hall).
  destruct (consolidate_loop_spec corpus [] [] Hwf)
    as (preds' & labels' & Heq' & _ & Hbp & Hbl & _).
  rewrite Heq in Heq'. injection Heq' as <- <-.
  exists preds, labels. unfold consolidate. split; [exact Heq|].
  split; [done|]. split; [symmetry; by eapply Forall2_length|]. done.
Qed.

Lemma consolidate_aligned_witness :
  Forall labelled [unscored_convo; fully_scored_convo] /\
  exists preds labels,
    consolidate [unscored_convo; fully_scored_convo] = Ok (preds, labels) /\
    length preds = length (test_convos [unscored_convo; fully_scored_convo]) /\
    length labels = length (test_convos [unscored_convo; fully_scored_convo]) /\
    Forall2 label_recorded (test_convos [unscored_convo; fully_scored_convo]) labels /\
    binary preds /\ binary labels.
Proof.
  split; [exact example_labelled|].
  apply (consolidate_aligned [unscored_convo; fully_scored_convo] example_labelled).
Defined.

Lemma for_conversations_test_only {S} (body : Conversation -> S -> result S)
    (corpus : Corpus) (s : S) :
  Forall (fun c => is_Some (convo_meta c !! "split")) corpus ->
  for_conversations is_test body corpus s
  = for_conversations is_test body (test_convos corpus) s.
Proof.
  intros Hsplit. revert s. induction Hsplit as [|c rest Hc _ IH]; intros s; [done|].
  unfold test_convos. rewrite filter_cons. fold (test_convos rest).
  cbn [for_conversations]. rewrite (is_test_in_test c Hc). cbn [bind].
  destruct (decide (in_test c)) as [Hin|Hout].
  - rewrite bool_decide_eq_true_2 by done. cbn [for_conversations].
    rewrite (is_test_in_test c Hc), bool_decide_eq_true_2 by done. cbn [bind].
    destruct (body c s) as [s'|e]; simpl; [apply IH | done].
  - rewrite bool_decide_eq_false_2 by done. simpl. apply IH.
Qed.

(** X2. Conversations outside the test split have no influence on cell
    9: when every conversation has a split, the result on the corpus is
    the result on its test conversations alone, also when it is an
    exception. *)
Theorem consolidate_test_split_only (corpus : Corpus) :
  Forall (fun c => is_Some (convo_meta c !! "split")) corpus ->
  consolidate corpus = consolidate (test_convos corpus).
Proof. apply for_conversations_test_only. Qed.

Lemma consolidate_test_split_only_witness :
  Forall (fun c => is_Some (convo_meta c !! "split")) mixed_corpus /\
  consolidate mixed_corpus = consolidate (test_convos mixed_corpus) /\
  consolidate mixed_corpus = Ok ([1; 0], [1; 0]) /\
  length mixed_corpus = 3%nat /\ length (test_convos mixed_corpus) = 2%nat.
Proof.
  assert (H : Forall (fun c => is_Some (convo_meta c !! "split")) mixed_corpus).
  { repeat (apply List.Forall_cons; [eexists; solve_lookup|]). apply List.Forall_nil. }
  split; [exact H|].
  split; [exact (consolidate_test_split_only mixed_corpus H)|].
  split; [vm_compute; reflexivity|]. split; vm_compute; reflexivity.
Defined.

Lemma getitem_Ok (meta : gmap string pyval) (key : string) (v : pyval) :
  getitem meta key = Ok v -> meta !! key = Some v.
Proof. unfold getitem. destruct (meta !! key); [by intros [= ->] | discriminate]. Qed.

Lemma consolidate_utts_Ok (utts : list Utterance) (p0 p : Z) :
  consolidate_utts utts p0 = Ok p ->
  Forall (fun utt => exists v, utt_meta utt !! "pred_score" = Some v /\
                               comparable_score v) utts.
Proof.
  revert p0. induction utts as [|utt rest IH]; intros p0 Hrun; [constructor|].
  simpl in Hrun. apply bind_Ok in Hrun as (v & Hv & Hrun).
  apply bind_Ok in Hrun as (hit & Hhit & Hrun).
  constructor; [|by eapply IH].
  exists v. split; [by apply getitem_Ok|].
  destruct v; try exact I; cbn [py_is_not_None] in Hhit;
    rewrite Hv in Hhit; discriminate Hhit.
Qed.

Lemma consolidate_loop_Ok (corpus : Corpus) (s s' : list Z * list Z) :
  for_conversations is_test consolidate_body corpus s = Ok s' ->
  Forall consolidable corpus.
Proof.
  revert s. induction corpus as [|c rest IH]; intros s Hrun; [constructor|].
  simpl in Hrun. apply bind_Ok in Hrun as (sel & Hsel & Hrun).
  apply bind_Ok in Hrun as (s1 & Hbody & Hrun).
  constructor; [|by eapply IH].
  unfold is_test in Hsel. apply bind_Ok in Hsel as (v & Hv & [= <-]).
  apply getitem_Ok in Hv. split; [by exists v|].
  intros Hin. unfold in_test in Hin. rewrite Hv in Hin. injection Hin as ->.
  simpl in Hbody. destruct s as [preds labels]. rewrite consolidate_body_eq in Hbody.
  apply bind_Ok in Hbody as (w & Hw & Hbody).
  apply bind_Ok in Hbody as (label & _ & Hbody).
  apply bind_Ok in Hbody as (p & Hp & _).
  apply getitem_Ok in Hw. split; [by exists w|]. by eapply consolidate_utts_Ok.
Qed.

(** X3. Cell 9 returns only on a corpus prepared for it: if it
    returns, every conversation has a [split], every test conversation
    has the field [conversation_has_personal_attack], and every
    utterance of a test conversation has a [pred_score] that is [None]
    or a number.  On a corpus that the transform has not annotated the
    cell raises. *)
Theorem consolidate_requires (corpus : Corpus) (preds labels : list Z) :
  consolidate corpus = Ok (preds, labels) -> Forall consolidable corpus.
Proof. apply consolidate_loop_Ok. Qed.

Lemma consolidate_requires_witness :
  consolidate [unscored_convo; fully_scored_convo] = Ok ([1; 1], [1; 1]) /\
  Forall consolidable [unscored_convo; fully_scored_convo].
Proof.
  assert (H : consolidate [unscored_convo; fully_scored_convo] = Ok ([1; 1], [1; 1]))
    by (vm_compute; reflexivity).
  split; [exact H | exact (consolidate_requires _ _ _ H)].
Defined.

(** ** Cell 10: the other printed numbers *)

Lemma mask_stats (preds labels : list Z) :
  binary preds ->
  length (array_mask preds (map (Z.eqb 0) labels))
  = (FP preds labels + TN preds labels)%nat /\
  (fold_right Qplus 0 (map inject_Z (array_mask preds (map (Z.eqb 0) labels)))
   == inject_Z (Z.of_nat (FP preds labels)))%Q.
Proof.
  intros Hp. revert labels. unfold array_mask, FP, TN, count_where.
  induction Hp as [|p preds Hp0 _ IH]; intros labels; [by split|].
  destruct labels as [|l labels]; [by split|].
  destruct (IH labels) as [IHlen IHsum]. cbn [map zip zip_with].
  rewrite !filter_cons. cbn [fst snd].
  destruct (Z.eqb_spec 0 l) as [<-|Hl].
  - rewrite (decide_True (P := Is_true true)) by exact I. cbn [map length fold_right].
    destruct Hp0 as [-> | ->].
    + rewrite (decide_False (P := (0 = 1 /\ 0 = 0))) by (intros [? _]; lia).
      rewrite (decide_True (P := (0 = 0 /\ 0 = 0))) by done.
      cbn [length]. split; [lia|]. rewrite IHsum. apply Qplus_0_l.
    + rewrite (decide_True (P := (1 = 1 /\ 0 = 0))) by done.
      rewrite (decide_False (P := (1 = 0 /\ 0 = 0))) by (intros [? _]; lia).
      cbn [length]. split; [lia|]. rewrite IHsum.
      rewrite Nat2Z.inj_succ, <- Z.add_1_l, inject_Z_plus. reflexivity.
  - rewrite (decide_False (P := Is_true false)) by (intros []).
    rewrite (decide_False (P := (p = 1 /\ l = 0))) by (intros [_ ?]; lia).
    rewrite (decide_False (P := (p = 0 /\ l = 0))) by (intros [_ ?]; lia).
    done.
Qed.

Lemma metrics_f1_fpr_aux (preds labels : list Z) :
  binary preds -> binary labels -> length preds = length labels ->
  exists m, metrics_cell preds labels = Ok m /\
            f1 m = standard_f1 preds labels /\
            feq (fpr m) (standard_fpr preds labels).
Proof.
  intros Hp Hl Hlen. unfold metrics_cell.
  rewrite (prf_binary preds labels Hp Hl Hlen). cbn [bind].
  destruct (count_cells_swapped preds labels Hp Hl) as (-> & -> & ->).
  eexists. split; [reflexivity|]. cbn [f1 fpr]. split.
  - unfold standard_f1. f_equal. lia.
  - destruct (mask_stats preds labels Hp) as [Hmlen Hsum]. unfold standard_fpr.
    destruct (array_mask preds (map (Z.eqb 0) labels)) as [|x masked] eqn:E.
    + simpl in Hmlen. rewrite <- Hmlen. exact I.
    + destruct (FP preds labels + TN preds labels)%nat as [|k] eqn:Ek;
        [discriminate Hmlen|].
      cbn [map] in Hsum. cbn [np_mean map ratio feq]. rewrite Hsum.
      cbn [length] in Hmlen |- *. rewrite length_map, Hmlen. reflexivity.
Qed.


(** X5. For arrays of 0 and 1 of one length the F1 that cell 10 prints
    is the standard one, 2tp / (2tp + fp + fn), although the arguments
    of the library call are exchanged (F1 is symmetric in them); and the
    FPR it prints is fp / (fp + tn), NaN when no conversation has the
    label 0. *)
Theorem metrics_f1_fpr (preds labels : list Z) :
  binary preds -> binary labels -> length preds = length labels ->
  exists m, metrics_cell preds labels = Ok m /\
            f1 m = standard_f1 preds labels /\
            feq (fpr m) (standard_fpr preds labels).
Proof. apply metrics_f1_fpr_aux. Qed.

Lemma metrics_f1_fpr_witness :
  binary [1; 1; 0] /\ binary [1; 0; 0] /\
  exists m, metrics_cell [1; 1; 0] [1; 0; 0] = Ok m /\
            f1 m = standard_f1 [1; 1; 0] [1; 0; 0] /\
            feq (fpr m) (standard_fpr [1; 1; 0] [1; 0; 0]).
Proof.
  assert (Hp : binary [1; 1; 0]).
  { repeat (apply List.Forall_cons; [lia|]). apply List.Forall_nil. }
  assert (Hl : binary [1; 0; 0]).
  { repeat (apply List.Forall_cons; [lia|]). apply List.Forall_nil. }
  split; [exact Hp|]. split; [exact Hl|].
  exact (metrics_f1_fpr [1; 1; 0] [1; 0; 0] Hp Hl eq_refl).
Defined.

Lemma ratio_unit (n d : nat) : (n <= d)%nat -> in_unit (ratio n d).
Proof.
  intros Hle. destruct d as [|d]; simpl.
  - split; [apply Qle_refl | discriminate].
  - assert (Hpos : (0 < inject_Z (Z.of_nat (S d)))%Q).
    { rewrite <- (Zlt_Qlt 0). lia. }
    split.
    + apply Qle_shift_div_l; [exact Hpos|]. rewrite Qmult_0_l.
      rewrite <- (Zle_Qle 0). lia.
    + apply Qle_shift_div_r; [exact Hpos|]. rewrite Qmult_1_l.
      rewrite <- Zle_Qle. lia.
Qed.

Lemma in_unit_feq (x y : pyfloat) : feq x y -> in_unit y -> in_unit x.
Proof.
  destruct x as [|p], y as [|q]; simpl; try done.
  intros Heq [H0 H1]. by rewrite Heq.
Qed.

Lemma counts_partition (preds labels : list Z) :
  (TP preds labels + FN preds labels <= length labels)%nat /\
  (TP preds labels + FP preds labels <= length preds)%nat.
Proof.
  unfold TP, FN, FP, count_where. revert labels.
  induction preds as [|p preds IH]; intros [|l labels]; simpl; try lia.
  destruct (IH labels) as [IH1 IH2]. rewrite !filter_cons. cbn [fst snd].
  repeat case_decide; simpl; lia.
Qed.

(** X6. For arrays of 0 and 1 of one length every number that cell 10
    prints (accuracy, precision, recall, FPR, F1) is NaN or lies between
    0 and 1. *)
Theorem metrics_in_unit (preds labels : list Z) :
  binary preds -> binary labels -> length preds = length labels ->
  exists m, metrics_cell preds labels = Ok m /\
            in_unit (acc m) /\ in_unit (precision m) /\ in_unit (recall m) /\
            in_unit (fpr m) /\ in_unit (f1 m).
Proof.
  intros Hp Hl Hlen.
  destruct (metrics_cell_swaps preds labels Hp Hl Hlen) as (m & Hm & Hacc & Hprec & Hrec).
  destruct (metrics_f1_fpr_aux preds labels Hp Hl Hlen) as (m' & Hm' & Hf1 & Hfpr).
  rewrite Hm in Hm'. injection Hm' as <-.
  destruct (counts_partition preds labels) as [Hfn Hfp].
  exists m. split; [done|]. repeat split.
  - eapply in_unit_feq; [exact Hacc|]. unfold standard_accuracy.
    destruct preds; [exact I|]. apply ratio_unit. unfold correct.
    etrans; [apply length_filter|]. rewrite length_zip_with. lia.
  - rewrite Hprec. apply ratio_unit. lia.
  - rewrite Hrec. apply ratio_unit. lia.
  - eapply in_unit_feq; [exact Hfpr|]. unfold standard_fpr.
    destruct (FP preds labels + TN preds labels)%nat eqn:E; [exact I|].
    rewrite <- E. apply ratio_unit. lia.
  - rewrite Hf1. apply ratio_unit. lia.
Qed.

Lemma metrics_in_unit_witness :
  binary [1; 1; 0] /\ binary [1; 0; 0] /\
  exists m, metrics_cell [1; 1; 0] [1; 0; 0] = Ok m /\
            in_unit (acc m) /\ in_unit (precision m) /\ in_unit (recall m) /\
            in_unit (fpr m) /\ in_unit (f1 m).
Proof.
  assert (Hp : binary [1; 1; 0]).
  { repeat (apply List.Forall_cons; [lia|]). apply List.Forall_nil. }
  assert (Hl : binary [1; 0; 0]).
  { repeat (apply List.Forall_cons; [lia|]). apply List.Forall_nil. }
  split; [exact Hp|]. split; [exact Hl|].
  exact (metrics_in_unit [1; 1; 0] [1; 0; 0] Hp Hl eq_refl).
Defined.

(** X4. Cells 9 and 10 compose: on a labelled corpus with at least
    one test conversation cell 9 returns, with one prediction for every
    test conversation, and cell 10 returns on its output without
    exception; the accuracy it prints is a number. *)
Theorem metrics_after_consolidate (corpus : Corpus) :
  Forall labelled corpus ->
  test_convos corpus <> [] ->
  exists preds labels m,
    consolidate corpus = Ok (preds, labels) /\
    length preds = length (test_convos corpus) /\
    length labels = length (test_convos corpus) /\
    metrics_cell preds labels = Ok m /\
    acc m <> FNaN.
Proof.
  intros Hwf Hne.
  destruct (consolidate_loop_labels corpus [] [] Hwf) as (preds & labels & Heq & Hlen & _).
  destruct (consolidate_loop_spec corpus [] [] Hwf)
    as (preds' & labels' & Heq' & Hll & Hbp & Hbl & _).
  rewrite Heq in Heq'. injection Heq' as <- <-.
  exists preds, labels. unfold metrics_cell.
  rewrite (prf_binary preds labels Hbp Hbl (eq_sym Hll)). cbn [bind].
  simpl in Hlen, Hll.
  eexists. split; [exact Heq|]. split; [exact Hlen|]. split; [congruence|].
  split; [reflexivity|]. cbn [acc].
  unfold array_eq. rewrite <- Hll, Nat.eqb_refl.
  destruct preds as [|p preds], labels as [|l labels]; try discriminate Hll.
  - exfalso. apply Hne. symmetry in Hlen. by apply length_zero_iff_nil in Hlen.
  - simpl. discriminate.
Qed.

Lemma metrics_after_consolidate_witness :
  Forall labelled [unscored_convo; fully_scored_convo] /\
  test_convos [unscored_convo; fully_scored_convo] <> [] /\
  exists preds labels m,
    consolidate [unscored_convo; fully_scored_convo] = Ok (preds, labels) /\
    length preds = length (test_convos [unscored_convo; fully_scored_convo]) /\
    length labels = length (test_convos [unscored_convo; fully_scored_convo]) /\
    metrics_cell preds labels = Ok m /\
    acc m <> FNaN.
Proof.
  assert (Hne : test_convos [unscored_convo; fully_scored_convo] <> []).
  { intros H. vm_compute in H. discriminate H. }
  split; [exact example_labelled|]. split; [exact Hne|].
  apply (metrics_after_consolidate [unscored_convo; fully_scored_convo]
           example_labelled Hne).
Defined.

(** ** Cell 11: what the table holds *)

Lemma derail_scan_Some (utts : list Utterance) (d : Z) (k a : nat) (n : Z) :
  derail_scan utts d (seq a k) = Ok (Some n) ->
  exists idx utt,
    (a <= idx < a + k)%nat /\ utts !! idx = Some utt /\ passes utt /\
    (forall j u, (a <= j < idx)%nat -> utts !! j = Some u -> ~ passes u) /\
    n = d - (Z.of_nat idx - 1).
Proof.
  revert a. induction k as [|k IH]; intros a Hrun; simpl in Hrun; [discriminate|].
  destruct (utts !! a) as [utt|] eqn:Hutt; [|discriminate].
  apply bind_Ok in Hrun as (v & Hv & Hrun). apply getitem_Ok in Hv.
  apply bind_Ok in Hrun as (hit & Hhit & Hrun).
  destruct hit.
  - injection Hrun as <-. exists a, utt. split; [lia|]. split; [done|].
    split; [by exists v|]. split; [intros j u Hj; lia | done].
  - apply IH in Hrun as (idx & utt' & Hidx & Hl & Hp & Hbefore & Hn).
    exists idx, utt'. split; [lia|]. split; [done|]. split; [done|]. split; [|done].
    intros j u Hj Hu. destruct (decide (j = a)) as [->|Hne].
    + rewrite Hutt in Hu. injection Hu as <-. intros (v' & Hv' & Hgt).
      rewrite Hv in Hv'. injection Hv' as <-. rewrite Hhit in Hgt. discriminate Hgt.
    + apply (Hbefore j u); [lia | done].
Qed.

Lemma non_header_utts_Ok (l r : list Utterance) :
  non_header_utts l = Ok r -> r = considered l.
Proof.
  revert r. induction l as [|utt rest IH]; intros r Hrun; simpl in Hrun.
  - by injection Hrun as <-.
  - apply bind_Ok in Hrun as (v & Hv & Hrun). apply getitem_Ok in Hv.
    apply bind_Ok in Hrun as (tl & Htl & [= <-]). apply IH in Htl as ->.
    unfold considered. rewrite filter_cons.
    assert (Hc : is_comment utt = negb (py_truthy v)) by (unfold is_comment; by rewrite Hv).
    rewrite Hc. by destruct (py_truthy v).
Qed.

Lemma is_derailing_test_true (c : Conversation) :
  is_derailing_test c = Ok true -> derailing c.
Proof.
  unfold is_derailing_test. intros Hrun.
  apply bind_Ok in Hrun as (v & Hv & Hrun). apply getitem_Ok in Hv.
  destruct (py_eq_str v "test") eqn:E; [|discriminate].
  apply py_eq_str_true in E. subst v.
  apply bind_Ok in Hrun as (w & Hw & [= Ht]). apply getitem_Ok in Hw.
  split; [done|]. by exists w.
Qed.

Lemma derail_body_entry (c : Conversation) (m m' : gmap string Z) :
  derail_body c m = Ok m' ->
  m' = m \/
  exists n, m' = <[convo_id c := n]> m /\
            first_forecast (considered (convo_utterances c)) n.
Proof.
  unfold derail_body. intros Hrun.
  apply bind_Ok in Hrun as (utts & Hutts & Hrun). apply non_header_utts_Ok in Hutts as ->.
  apply bind_Ok in Hrun as (found & Hscan & [= <-]).
  destruct found as [n|]; [|by left]. right. exists n. split; [done|].
  unfold range in Hscan.
  apply derail_scan_Some in Hscan as (idx & utt & Hidx & Hl & Hp & Hbefore & ->).
  exists idx, utt. split; [lia|]. split; [done|]. split; [done|]. split; [done|]. lia.
Qed.

(** Every entry of the table left by the loop was there before or
    comes from a selected conversation of the corpus. *)
Lemma derail_loop_entries (corpus : Corpus) (m0 m : gmap string Z) (id : string) (n : Z) :
  for_conversations is_derailing_test derail_body corpus m0 = Ok m ->
  m !! id = Some n ->
  m0 !! id = Some n \/
  exists c, c ∈ corpus /\ convo_id c = id /\ derailing c /\
            first_forecast (considered (convo_utterances c)) n.
Proof.
  revert m0. induction corpus as [|c rest IH]; intros m0 Hrun Hm; simpl in Hrun.
  - injection Hrun as <-. by left.
  - apply bind_Ok in Hrun as (sel & Hsel & Hrun).
    apply bind_Ok in Hrun as (m1 & Hbody & Hrun).
    destruct (IH m1 Hrun Hm) as [Hm1 | (c' & Hin & Hid & Hd & Hff)].
    + destruct sel; [|injection Hbody as <-; by left].
      destruct (derail_body_entry c m0 m1 Hbody) as [-> | (n' & -> & Hff)]; [by left|].
      destruct (decide (convo_id c = id)) as [Hid|Hne].
      * subst id. rewrite lookup_insert_eq in Hm1. injection Hm1 as ->.
        right. exists c. split; [by left|]. split; [done|].
        split; [by apply is_derailing_test_true | done].
      * rewrite lookup_insert_ne in Hm1 by done. by left.
    + right. exists c'. split; [by right | done].
Qed.

(** X7. Every entry of the table that cell 11 builds belongs to a test
    conversation of the corpus whose [conversation_has_personal_attack]
    is true, and its value is the distance from the first comment at a
    position 1 or later whose score passes the threshold to the end of
    the comments; the value is at least 1 and at most the number of
    comments minus 1. *)
Theorem comments_until_derail_entries (corpus : Corpus) (m : gmap string Z)
    (id : string) (n : Z) :
  comments_until_derail corpus = Ok m -> m !! id = Some n ->
  exists c, c ∈ corpus /\ convo_id c = id /\ derailing c /\
            first_forecast (considered (convo_utterances c)) n /\
            1 <= n <= Z.of_nat (length (considered (convo_utterances c))) - 1.
Proof.
  intros Hrun Hm.
  destruct (derail_loop_entries corpus ∅ m id n Hrun Hm) as [Habs | (c & Hin & Hid & Hd & Hff)].
  - rewrite lookup_empty in Habs. discriminate Habs.
  - exists c. repeat (split; [done|]).
    destruct Hff as (idx & utt & Hidx & Hl & _ & _ & ->).
    apply lookup_lt_Some in Hl. lia.
Qed.

Lemma example_table :
  exists m, comments_until_derail [fully_scored_convo] = Ok m /\ m !! "t4" = Some 1.
Proof. eexists. split; vm_compute; reflexivity. Defined.

Lemma comments_until_derail_entries_witness :
  exists m c,
    comments_until_derail [fully_scored_convo] = Ok m /\ m !! "t4" = Some 1 /\
    c ∈ [fully_scored_convo] /\ convo_id c = "t4" /\ derailing c /\
    first_forecast (considered (convo_utterances c)) 1 /\
    1 <= 1 <= Z.of_nat (length (considered (convo_utterances c))) - 1.
Proof.
  destruct example_table as (m & Hrun & Hm).
  destruct (comments_until_derail_entries [fully_scored_convo] m "t4" 1 Hrun Hm)
    as (c & H).
  exists m, c. split; [exact Hrun|]. split; [exact Hm | exact H].
Defined.

Lemma passes_scored (utt : Utterance) : scored utt -> passes utt -> above_threshold utt.
Proof.
  intros [Hn | [f Hf]] (v & Hv & Hgt).
  - rewrite Hn in Hv. injection Hv as <-. discriminate Hgt.
  - rewrite Hf in Hv. injection Hv as <-.
    destruct (py_gt_float f) as (hit & Hhit & Hiff). rewrite Hhit in Hgt.
    injection Hgt as ->. destruct Hiff as [Hab _].
    destruct (Hab eq_refl) as (q & -> & Hlt). by exists q.
Qed.

(** X8. Cell 11 counts only true positives of cell 9: on a labelled
    corpus, every entry of the table belongs to a test conversation
    with label 1 for which the inner loop of cell 9 yields the
    prediction 1. *)
Theorem comments_until_derail_true_positive (corpus : Corpus) (m : gmap string Z)
    (id : string) (n : Z) :
  Forall labelled corpus ->
  comments_until_derail corpus = Ok m -> m !! id = Some n ->
  exists c, c ∈ corpus /\ convo_id c = id /\ in_test c /\ label_recorded c 1 /\
            consolidate_utts (convo_utterances c) 0 = Ok 1.
Proof.
  intros Hwf Hrun Hm.
  destruct (derail_loop_entries corpus ∅ m id n Hrun Hm) as [Habs | (c & Hin & Hid & Hd & Hff)].
  { rewrite lookup_empty in Habs. discriminate Habs. }
  exists c. split; [done|]. split; [done|].
  destruct Hd as (Htest & v & Hv & Htruthy). split; [done|].
  rewrite Forall_forall in Hwf. destruct (Hwf c Hin) as [_ Hlab].
  destruct (Hlab Htest) as [[b Hb] Hscored].
  rewrite Hv in Hb. injection Hb as ->. simpl in Htruthy. subst b.
  split; [by exists true|].
  destruct (consolidate_utts_spec (convo_utterances c) 0 Hscored) as (p & Hp & Hone & _).
  rewrite Hp. f_equal. apply Hone. right.
  destruct Hff as (idx & utt & _ & Hl & Hpass & _).
  apply Exists_exists. exists utt.
  assert (Hutt : utt ∈ convo_utterances c).
  { apply list_elem_of_lookup_2 in Hl. unfold considered in Hl.
    by apply list_elem_of_filter in Hl as [_ ?]. }
  split; [done|]. apply passes_scored; [|done].
  rewrite Forall_forall in Hscored. by apply Hscored.
Qed.

Lemma comments_until_derail_true_positive_witness :
  Forall labelled [fully_scored_convo] /\
  exists m c,
    comments_until_derail [fully_scored_convo] = Ok m /\ m !! "t4" = Some 1 /\
    c ∈ [fully_scored_convo] /\ convo_id c = "t4" /\ in_test c /\
    label_recorded c 1 /\ consolidate_utts (convo_utterances c) 0 = Ok 1.
Proof.
  assert (Hwf : Forall labelled [fully_scored_convo]).
  { apply List.Forall_cons; [solve_labelled | apply List.Forall_nil]. }
  split; [exact Hwf|].
  destruct example_table as (m & Hrun & Hm).
  destruct (comments_until_derail_true_positive [fully_scored_convo] m "t4" 1 Hwf Hrun Hm)
    as (c & H).
  exists m, c. split; [exact Hrun|]. split; [exact Hm | exact H].
Defined.

(** ** Cell 5: tokenization *)

Lemma for_each_map {A} (f : A -> M A) (g : A -> A) (ev : A -> event) (l : list A) tr :
  (forall a tr, a ∈ l -> f a tr = (tr ++ [ev a], Ok (g a))) ->
  for_each f l tr = (tr ++ map ev l, Ok (map g l)).
Proof.
  revert tr. induction l as [|a l IH]; intros tr Hf; simpl.
  - unfold ret. by rewrite app_nil_r.
  - unfold mbind. rewrite Hf by (by left).
    rewrite IH by (intros a' tr' Hin; apply Hf; by right).
    unfold ret. by rewrite <- app_assoc.
Qed.

Lemma for_each_concat {A} (f : A -> M A) (g : A -> A) (evs : A -> list event)
    (l : list A) tr :
  (forall a tr, a ∈ l -> f a tr = (tr ++ evs a, Ok (g a))) ->
  for_each f l tr = (tr ++ concat (map evs l), Ok (map g l)).
Proof.
  revert tr. induction l as [|a l IH]; intros tr Hf; simpl.
  - unfold ret. by rewrite app_nil_r.
  - unfold mbind. rewrite Hf by (by left).
    rewrite IH by (intros a' tr' Hin; apply Hf; by right).
    unfold ret. by rewrite <- app_assoc.
Qed.

Lemma tokenize_utt_tokenizable w craft_model utt tr :
  tokenizable w craft_model utt ->
  tokenize_utt w craft_model utt tr
  = (tr ++ [tokenize_call craft_model Returned utt], Ok (tokenized_utt w craft_model utt)).
Proof.
  unfold tokenizable, tokenize_utt, tokenized_utt, tokenize_call, mbind, ext, ret.
  destruct (craft_tokenize w (voc craft_model) (utt_text utt)) as [toks|e];
    [done | discriminate].
Qed.

Lemma tokenize_convo_tokenizable w craft_model c tr :
  Forall (tokenizable w craft_model) (convo_utterances c) ->
  tokenize_convo w craft_model c tr
  = (tr ++ map (tokenize_call craft_model Returned) (convo_utterances c),
     Ok (tokenized_convo w craft_model c)).
Proof.
  intros Hall. unfold tokenize_convo, mbind.
  rewrite (for_each_map _ (tokenized_utt w craft_model)
             (tokenize_call craft_model Returned)).
  - done.
  - intros utt tr' Hin. apply tokenize_utt_tokenizable.
    rewrite Forall_forall in Hall. by apply Hall.
Qed.

Lemma tokenize_tokenizable w craft_model (corpus : Corpus) tr :
  Forall (tokenizable w craft_model) (iter_utterances corpus) ->
  tokenize w craft_model corpus tr
  = (tr ++ map (tokenize_call craft_model Returned) (iter_utterances corpus),
     Ok (map (tokenized_convo w craft_model) corpus)).
Proof.
  intros Hall. unfold tokenize.
  rewrite (for_each_concat _ (tokenized_convo w craft_model)
             (fun c => map (tokenize_call craft_model Returned) (convo_utterances c))).
  - unfold iter_utterances. by rewrite concat_map_map.
  - intros c tr' Hin. apply tokenize_convo_tokenizable.
    unfold iter_utterances in Hall. rewrite Forall_concat, Forall_fmap in Hall.
    rewrite Forall_forall in Hall. by apply (Hall c).
Qed.

(** X10. When the tokenizer answers on the text of every utterance,
    cell 5 calls it once for every utterance of the corpus (its calls
    are, up to their order, those of the utterances) and leaves the
    corpus with the field [tokens] of every utterance set to the
    tokenizer's answer on that utterance's text (a former value of the
    field is replaced); identifiers, texts, the other fields and the
    conversations are as before. *)
Theorem tokenize_sets_every_utterance (w : World) (craft_model : CRAFTModel)
    (corpus : Corpus) (tr : list event) :
  Forall (tokenizable w craft_model) (iter_utterances corpus) ->
  exists calls,
    calls ≡ₚ map (tokenize_call craft_model Returned) (iter_utterances corpus) /\
    tokenize w craft_model corpus tr
    = (tr ++ calls, Ok (map (tokenized_convo w craft_model) corpus)) /\
    Forall2 (fun utt utt' =>
               exists toks,
                 craft_tokenize w (voc craft_model) (utt_text utt) = Ok toks /\
                 utt' = add_meta utt "tokens" (VToks toks))
            (iter_utterances corpus)
            (iter_utterances (map (tokenized_convo w craft_model) corpus)).
Proof.
  intros Hall.
  exists (map (tokenize_call craft_model Returned) (iter_utterances corpus)).
  split; [reflexivity|]. split; [by apply tokenize_tokenizable|].
  unfold iter_utterances in *. rewrite <- list_fmap_compose.
  induction corpus as [|c rest IH]; simpl in *; [constructor|].
  apply Forall_app in Hall as [Hc Hrest].
  apply Forall2_app; [|by apply IH].
  clear -Hc. induction Hc as [|utt utts Hutt _ IHu]; simpl; constructor; [|done].
  unfold tokenizable in Hutt. unfold tokenized_utt.
  destruct (craft_tokenize w (voc craft_model) (utt_text utt)) as [toks|e];
    [by exists toks | discriminate].
Qed.

Lemma tokenize_sets_every_utterance_witness :
  Forall (tokenizable example_world example_model) (iter_utterances example_corpus) /\
  exists calls,
    calls ≡ₚ map (tokenize_call example_model Returned) (iter_utterances example_corpus) /\
    tokenize example_world example_model example_corpus []
    = ([] ++ calls, Ok (map (tokenized_convo example_world example_model) example_corpus)) /\
    Forall2 (fun utt utt' =>
               exists toks,
                 craft_tokenize example_world (voc example_model) (utt_text utt) = Ok toks /\
                 utt' = add_meta utt "tokens" (VToks toks))
            (iter_utterances example_corpus)
            (iter_utterances (map (tokenized_convo example_world example_model)
                                  example_corpus)).
Proof.
  assert (H : Forall (tokenizable example_world example_model)
                     (iter_utterances example_corpus)).
  { repeat (apply List.Forall_cons; [reflexivity|]). apply List.Forall_nil. }
  split; [exact H|].
  exact (tokenize_sets_every_utterance example_world example_model example_corpus [] H).
Defined.

Lemma for_each_Raise {A} (f : A -> M A) (l : list A) tr tr' e :
  for_each f l tr = (tr', Raise e) ->
  exists l1 a l2 l1' tr1,
    l = l1 ++ a :: l2 /\ for_each f l1 tr = (tr1, Ok l1') /\ f a tr1 = (tr', Raise e).
Proof.
  revert tr. induction l as [|a l IH]; intros tr Hrun; simpl in Hrun; [discriminate|].
  unfold mbind at 1 in Hrun. destruct (f a tr) as [tr1 [a'|e1]] eqn:Ha.
  - unfold mbind at 1 in Hrun.
    destruct (for_each f l tr1) as [tr2 [l'|e2]] eqn:Hl; [discriminate|].
    injection Hrun as -> ->.
    destruct (IH _ Hl) as (l1 & b & l2 & l1' & trx & -> & H1 & Hb).
    exists (a :: l1), b, l2, (a' :: l1'), trx. split; [done|]. split; [|done].
    simpl. unfold mbind. by rewrite Ha, H1.
  - injection Hrun as -> ->. by exists [], a, l, [], tr.
Qed.

(** X11. Cell 5 stops at the first utterance on which the tokenizer
    raises.  When the cell ends with an exception, it is the one that
    the tokenizer raised on the text of an utterance of the corpus; the
    call on that utterance is the last event, the calls before it are
    those of other utterances of the corpus, each called once, and all
    of them returned.  And the cell does end with an exception when the
    tokenizer raises on some utterance. *)
Theorem tokenize_stops_at_failure (w : World) (craft_model : CRAFTModel)
    (corpus : Corpus) (tr : list event) :
  (forall tr' e,
     tokenize w craft_model corpus tr = (tr', Raise e) ->
     exists called utt rest,
       iter_utterances corpus ≡ₚ called ++ utt :: rest /\
       Forall (tokenizable w craft_model) called /\
       craft_tokenize w (voc craft_model) (utt_text utt) = Raise e /\
       tr' = tr ++ map (tokenize_call craft_model Returned) called
                ++ [tokenize_call craft_model (Raised e) utt]) /\
  (~ Forall (tokenizable w craft_model) (iter_utterances corpus) ->
   is_ok (snd (tokenize w craft_model corpus tr)) = false).
Proof.
  split.
  - intros tr' e Hrun. unfold tokenize in Hrun.
    apply for_each_Raise in Hrun
      as (before & c & after & before' & tr1 & -> & Hbefore & Hc).
    apply (tokenize_inv w craft_model before) in Hbefore as (-> & _ & Hable).
    unfold tokenize_convo in Hc. unfold mbind at 1 in Hc.
    destruct (for_each (tokenize_utt w craft_model) (convo_utterances c) _)
      as [tr2 [utts'|e2]] eqn:Hutts; [discriminate|].
    injection Hc as -> ->.
    apply for_each_Raise in Hutts as (utts1 & utt & utts2 & utts1' & tr3 & Heq & H1 & Hutt).
    eapply (for_each_Ok _ (fun utt => [tokenize_call craft_model Returned utt]))
      in H1 as [-> Hall]; [|apply tokenize_utt_inv].
    apply Forall2_graph in Hall as [_ Hable1].
    unfold tokenize_utt, mbind, ext in Hutt.
    destruct (craft_tokenize w (voc craft_model) (utt_text utt)) as [toks|e1] eqn:Hfail;
      [discriminate|].
    simpl in Hutt. injection Hutt as <- <-.
    exists (iter_utterances before ++ utts1), utt, (utts2 ++ iter_utterances after).
    split; [|split; [by apply Forall_app|split; [done|]]].
    + unfold iter_utterances. rewrite map_app, concat_app. simpl. rewrite Heq.
      by rewrite <- !app_assoc.
    + rewrite concat_map_unit, map_app, <- !app_assoc. reflexivity.
  - intros Hnot.
    destruct (tokenize w craft_model corpus tr) as [tr' [corpus'|e]] eqn:Hrun; [|done].
    exfalso. apply Hnot. by apply tokenize_inv in Hrun as (_ & _ & Hable).
Qed.

Lemma tokenize_stops_at_failure_witness :
  tokenize picky_world example_model example_corpus []
  = ([tokenize_call example_model Returned (mk_utt "h1" "Sources" true);
      tokenize_call example_model Returned (mk_utt "u1" "hello there" false);
      tokenize_call example_model (Raised (LibraryError "unknown word"))
                    (mk_utt "u2" "that is wrong" false)],
     Raise (LibraryError "unknown word")) /\
  exists called utt rest,
    iter_utterances example_corpus ≡ₚ called ++ utt :: rest /\
    Forall (tokenizable picky_world example_model) called /\
    craft_tokenize picky_world (voc example_model) (utt_text utt)
    = Raise (LibraryError "unknown word") /\
    [tokenize_call example_model Returned (mk_utt "h1" "Sources" true);
     tokenize_call example_model Returned (mk_utt "u1" "hello there" false);
     tokenize_call example_model (Raised (LibraryError "unknown word"))
                   (mk_utt "u2" "that is wrong" false)]
    = [] ++ map (tokenize_call example_model Returned) called
         ++ [tokenize_call example_model (Raised (LibraryError "unknown word")) utt].
Proof.
  assert (Hrun : tokenize picky_world example_model example_corpus []
    = ([tokenize_call example_model Returned (mk_utt "h1" "Sources" true);
        tokenize_call example_model Returned (mk_utt "u1" "hello there" false);
        tokenize_call example_model (Raised (LibraryError "unknown word"))
                      (mk_utt "u2" "that is wrong" false)],
       Raise (LibraryError "unknown word"))) by (vm_compute; reflexivity).
  split; [exact Hrun|].
  exact (proj1 (tokenize_stops_at_failure picky_world example_model example_corpus [])
           _ _ Hrun).
Defined.

(** ** Cell 12: the histogram *)

Lemma plt_all_extends w (fs : list string) tr :
  exists l, fst (plt_all w fs tr) = tr ++ l /\ (fs <> [] -> l <> []).
Proof.
  revert tr. induction fs as [|f fs IH]; intros tr; simpl.
  - exists []. by rewrite app_nil_r.
  - unfold mbind, ext. destruct (plt w f) as [u|e] eqn:Hf; simpl.
    + destruct (IH (tr ++ [Call (call_plt f) Returned])) as (l & Hl & _).
      exists (Call (call_plt f) Returned :: l). rewrite Hl, <- app_assoc. done.
    + eexists. split; [reflexivity | done].
Qed.

Lemma values_nil (cud : gmap string Z) : (map_to_list cud).*2 = [] <-> cud = ∅.
Proof.
  split.
  - intros H. apply fmap_nil_inv in H. by apply map_to_list_empty_iff.
  - intros ->. by rewrite map_to_list_empty.
Qed.

Lemma plot_histogram_empty w (cud : gmap string Z) tr :
  plot_histogram w cud tr = (tr, Raise ValueError) <-> cud = ∅.
Proof.
  unfold plot_histogram, mbind, lift. split.
  - intros Hrun. apply values_nil.
    destruct ((map_to_list cud).*2) as [|x rest]; [done|]. exfalso.
    cbn [np_max] in Hrun.
    destruct (plt_all_extends w plot_calls tr) as (l & Hl & Hne).
    rewrite Hrun in Hl. simpl in Hl.
    rewrite <- (app_nil_r tr) in Hl at 1. apply app_inv_head in Hl.
    by apply Hne.
  - intros ->. by rewrite map_to_list_empty.
Qed.

Lemma run_Ok_np_max w final :
  snd (run w) = Ok final ->
  exists z, np_max (map_to_list (final_comments_until_derail final)).*2 = Ok z.
Proof.
  unfold run. destruct (notebook w []) as [tr r] eqn:Hrun. simpl. intros ->.
  unfold notebook, cell in Hrun.
  do 11 (apply mbind_Ok in Hrun as (? & ? & _ & Hrun)).
  apply mbind_Ok in Hrun as (? & tr12 & H12 & Hrun).
  apply ret_Ok in Hrun as [<- _]. cbn [final_comments_until_derail].
  unfold plot_histogram in H12. apply mbind_Ok in H12 as (z & ? & Hmax & _).
  apply lift_Ok in Hmax as [Hmax _]. by exists z.
Qed.

(** X9. Cell 12 needs a table that is not empty: on the empty table
    it raises [ValueError] (the maximum of an empty array) before any
    plotting call, and this is the only way for it to end with
    [ValueError] without a call; so a run of the notebook that ends
    without exception has recorded at least one conversation in cell
    11. *)
Theorem histogram_needs_an_entry :
  (forall w (cud : gmap string Z) tr,
     plot_histogram w cud tr = (tr, Raise ValueError) <-> cud = ∅) /\
  (forall w final,
     snd (run w) = Ok final -> final_comments_until_derail final <> ∅).
Proof.
  split; [exact plot_histogram_empty|].
  intros w final Hrun Hempty.
  destruct (run_Ok_np_max w final Hrun) as [z Hz].
  rewrite Hempty, map_to_list_empty in Hz. discriminate Hz.
Qed.

Lemma histogram_needs_an_entry_witness :
  exists final,
    snd (run example_world) = Ok final /\
    final_comments_until_derail final <> ∅.
Proof.
  destruct (snd (run example_world)) as [final|e] eqn:Hrun.
  - exists final. split; [reflexivity|].
    exact (proj2 histogram_needs_an_entry example_world final Hrun).
  - exfalso. pose proof example_run_ok as Hok. rewrite Hrun in Hok. discriminate Hok.
Defined.

(** ** The selectors of cells 7, 9 and 11 *)

(** X13. The selector handed to the transform in cell 7
    ([split in ['test']]) and the selector of cell 9 ([split == 'test'])
    are the same function, exceptions included, so the conversations
    evaluated are those annotated; and a conversation selected by cell
    11 is selected by both. *)
Theorem selectors_agree (c : Conversation) :
  transform_selector c = is_test c /\
  (is_derailing_test c = Ok true ->
   is_test c = Ok true /\ transform_selector c = Ok true).
Proof.
  assert (Heq : transform_selector c = is_test c).
  { unfold transform_selector, is_test.
    destruct (getitem (convo_meta c) "split") as [v|e]; simpl; [|done].
    by rewrite orb_false_r. }
  split; [exact Heq|]. intros Hsel. rewrite Heq.
  apply is_derailing_test_true in Hsel as [Htest _].
  rewrite is_test_in_test by (by eexists).
  by rewrite bool_decide_eq_true_2.
Qed.

Lemma selectors_agree_witness :
  is_derailing_test unscored_convo = Ok true /\
  is_test unscored_convo = Ok true /\ transform_selector unscored_convo = Ok true.
Proof.
  assert (H : is_derailing_test unscored_convo = Ok true) by (vm_compute; reflexivity).
  split; [exact H | exact (proj2 (selectors_agree unscored_convo) H)].
Defined.

(** ** Cell 11: no positive forecast is lost *)

Lemma derail_scan_None (utts : list Utterance) (d : Z) (k a : nat) :
  derail_scan utts d (seq a k) = Ok None ->
  forall idx utt, (a <= idx < a + k)%nat -> utts !! idx = Some utt -> ~ passes utt.
Proof.
  revert a. induction k as [|k IH]; intros a Hrun idx utt Hidx Hl; [lia|].
  simpl in Hrun. destruct (utts !! a) as [u|] eqn:Hu; [|discriminate].
  apply bind_Ok in Hrun as (v & Hv & Hrun). apply getitem_Ok in Hv.
  apply bind_Ok in Hrun as (hit & Hhit & Hrun).
  destruct hit; [discriminate|].
  destruct (decide (idx = a)) as [->|Hne].
  - rewrite Hu in Hl. injection Hl as <-. intros (v' & Hv' & Hgt).
    rewrite Hv in Hv'. injection Hv' as <-. rewrite Hhit in Hgt. discriminate Hgt.
  - apply (IH (S a) Hrun idx utt); [lia | done].
Qed.

Lemma derailing_selected (c : Conversation) :
  derailing c -> is_derailing_test c = Ok true.
Proof.
  intros (Htest & v & Hv & Htruthy). unfold is_derailing_test.
  rewrite (getitem_Some _ _ _ Htest). simpl.
  rewrite (getitem_Some _ _ _ Hv). simpl. by rewrite Htruthy.
Qed.

Lemma derail_body_records (c : Conversation) (m m' : gmap string Z)
    (idx : nat) (utt : Utterance) :
  derail_body c m = Ok m' ->
  (1 <= idx)%nat -> considered (convo_utterances c) !! idx = Some utt -> passes utt ->
  is_Some (m' !! convo_id c).
Proof.
  unfold derail_body. intros Hrun Hidx Hl Hp.
  apply bind_Ok in Hrun as (utts & Hutts & Hrun). apply non_header_utts_Ok in Hutts as ->.
  apply bind_Ok in Hrun as (found & Hscan & [= <-]).
  destruct found as [n|].
  - rewrite lookup_insert_eq. by eexists.
  - exfalso. unfold range in Hscan.
    apply (derail_scan_None _ _ _ _ Hscan idx utt); [|done|done].
    apply lookup_lt_Some in Hl. lia.
Qed.

Lemma derail_body_keeps (c : Conversation) (m m' : gmap string Z) (id : string) :
  derail_body c m = Ok m' -> is_Some (m !! id) -> is_Some (m' !! id).
Proof.
  intros Hrun Hm. destruct (derail_body_entry c m m' Hrun) as [-> | (n & -> & _)]; [done|].
  destruct (decide (convo_id c = id)) as [<-|Hne].
  - rewrite lookup_insert_eq. by eexists.
  - by rewrite lookup_insert_ne.
Qed.

Lemma derail_loop_keeps (corpus : Corpus) (m0 m : gmap string Z) (id : string) :
  for_conversations is_derailing_test derail_body corpus m0 = Ok m ->
  is_Some (m0 !! id) -> is_Some (m !! id).
Proof.
  revert m0. induction corpus as [|c rest IH]; intros m0 Hrun Hm; simpl in Hrun.
  - by injection Hrun as <-.
  - apply bind_Ok in Hrun as (sel & _ & Hrun).
    apply bind_Ok in Hrun as (m1 & Hbody & Hrun).
    apply (IH m1 Hrun). destruct sel.
    + by apply (derail_body_keeps c m0).
    + by injection Hbody as <-.
Qed.

(** X15. Cell 11 loses no positive forecast: when it returns, every
    test conversation of the corpus whose label is true and that has a
    comment at a position 1 or later whose score passes the threshold
    has an entry in the table. *)
Theorem comments_until_derail_complete (corpus : Corpus) (m : gmap string Z)
    (c : Conversation) (idx : nat) (utt : Utterance) :
  comments_until_derail corpus = Ok m ->
  c ∈ corpus -> derailing c ->
  (1 <= idx)%nat -> considered (convo_utterances c) !! idx = Some utt -> passes utt ->
  is_Some (m !! convo_id c).
Proof.
  intros Hrun Hin Hd Hidx Hl Hp.
  apply list_elem_of_split in Hin as (l1 & l2 & ->).
  unfold comments_until_derail in Hrun. rewrite for_conversations_app in Hrun.
  apply bind_Ok in Hrun as (m1 & _ & Hrun). simpl in Hrun.
  rewrite (derailing_selected c Hd) in Hrun. simpl in Hrun.
  apply bind_Ok in Hrun as (m2 & Hbody & Hrun).
  apply (derail_loop_keeps l2 m2 m _ Hrun).
  by apply (derail_body_records c m1 m2 idx utt).
Qed.

Lemma comments_until_derail_complete_witness :
  exists m,
    comments_until_derail [fully_scored_convo] = Ok m /\
    derailing fully_scored_convo /\
    passes (scored_utt "c" false (VFloat (FFin (7 # 8)))) /\
    is_Some (m !! convo_id fully_scored_convo).
Proof.
  destruct example_table as (m & Hrun & _).
  assert (Hd : derailing fully_scored_convo).
  { split; [solve_lookup|]. exists (VBool true). split; solve_lookup. }
  assert (Hp : passes (scored_utt "c" false (VFloat (FFin (7 # 8))))).
  { exists (VFloat (FFin (7 # 8))). split; [solve_lookup | reflexivity]. }
  exists m. split; [exact Hrun|]. split; [exact Hd|]. split; [exact Hp|].
  refine (comments_until_derail_complete [fully_scored_convo] m fully_scored_convo 2
            (scored_utt "c" false (VFloat (FFin (7 # 8)))) Hrun _ Hd _ _ Hp).
  - apply list_elem_of_here.
  - apply le_S, le_n.
  - vm_compute. reflexivity.
Defined.
